(** * Counting Bloom filter (bloom.go): a shallow embedding and its properties

    The Go package keeps a slice of [uint8] counters, a map from keys to
    insertion instants and a sweep cursor behind one [sync.RWMutex].  The
    embedding below follows bloom.go function by function:

    - machine integers are [Z] with the wrap-around written out;
    - a run-time panic of Go (division by zero, index out of range, a
      negative length given to [make]) is a value of type [panic];
    - the slice is a [list Z] read and written by index with a bounds check;
    - the map is a [gmap string Z] (instants are nanoseconds as [Z]);
    - each critical section of the mutex is one function on the state, so
      that concurrent callers are interleavings of these functions. *)

From Stdlib Require Import ZArith Lia Ascii String.
From stdpp Require Import base tactics option list gmap strings.

Local Open Scope Z_scope.

(** ** Go run-time panics and the error monad *)

Inductive panic : Type :=
  | DivideByZero      (* integer divide by zero *)
  | IndexOutOfRange   (* index out of range *)
  | MakesliceLen.     (* makeslice: len out of range *)

Inductive result (A : Type) : Type :=
  | Ok (a : A)
  | Panic (p : panic).
Arguments Ok {A} a.
Arguments Panic {A} p.

Definition bind {A B : Type} (m : result A) (k : A -> result B) : result B :=
  match m with
  | Ok a => k a
  | Panic p => Panic p
  end.

Notation "'do' x <- m ; k" := (bind m (fun x => k))
  (at level 10, x name, m at level 100, k at level 200).

(** ** Machine integers *)

Definition two64 : Z := 2 ^ 64.

(** Conversion [uint64(x)] of an [int], and [uint64] addition and product. *)
Definition uint64 (x : Z) : Z := x mod two64.
Definition add64 (a b : Z) : Z := (a + b) mod two64.
Definition mul64 (a b : Z) : Z := (a * b) mod two64.

(** [a % b] on [uint64]: panics when the divisor is zero. *)
Definition umod64 (a b : Z) : result Z :=
  if b =? 0 then Panic DivideByZero else Ok (a mod b).

(** [c++] and [c--] on a [uint8]. *)
Definition uint8_incr (c : Z) : Z := (c + 1) mod 256.
Definition uint8_decr (c : Z) : Z := (c - 1) mod 256.

(** ** hash/fnv: the 64-bit FNV-1a sum *)

Definition offset64 : Z := 14695981039346656037.
Definition prime64 : Z := 1099511628211.

(** [[]byte(input)] *)
Fixpoint bytes_of (input : string) : list Z :=
  match input with
  | EmptyString => []
  | String a rest => Z.of_N (N_of_ascii a) :: bytes_of rest
  end.

(** The Write method of sum64a: [hash ^= sum64a(c); hash *= prime64] for
    each byte. *)
Fixpoint sum64a_Write (h : Z) (data : list Z) : Z :=
  match data with
  | [] => h
  | c :: rest => sum64a_Write (mul64 (Z.lxor h c) prime64) rest
  end.

(** [h := fnv.New64a(); h.Write(data); h.Sum64()] *)
Definition fnv1a64 (data : list Z) : Z := sum64a_Write offset64 data.

(** [func hash(input string, seed int) uint64] *)
Definition hash (input : string) (seed : Z) : Z :=
  add64 (fnv1a64 (bytes_of input)) (uint64 seed).

(** The position [hash(item, i) % uint64(cbf.size)] used by Add, Check and
    Remove. *)
Definition index (item : string) (i : Z) (sz : Z) : result Z :=
  umod64 (hash item i) (uint64 sz).

(** ** Constants, options and the filter *)

Definition K : Z := 12.
Definition DefaultBitSize : Z := 1 * 1024 * 1024.
Definition DefaultCleanIntervalTime : Z := 60 * 1000000000.

Definition NO_EXPIRATION : Z := 0.
Definition LAZY_EXPIRATION : Z := 1.
Definition RESET_EVERY_PERIOD : Z := 2.
Definition EXPIRY_DURATION : Z := 3.

Record Options : Type := mkOptions {
  ExpiryStrategy : Z;   (* type ExpiryStrategy int *)
  Duration : Z          (* time.Duration, nanoseconds *)
}.

Record CountingBloomFilter : Type := mkCBF {
  bitmap : list Z;               (* []uint8 *)
  size : Z;                      (* int *)
  options : Options;
  currentIndex : Z;              (* cursor of the lazy sweep *)
  timestampMap : gmap string Z   (* map[string]time.Time *)
}.

(** ** Slice access with Go's bounds check *)

Definition bitmap_get (bm : list Z) (i : Z) : result Z :=
  if i <? 0 then Panic IndexOutOfRange
  else match bm !! Z.to_nat i with
       | Some c => Ok c
       | None => Panic IndexOutOfRange
       end.

Definition bitmap_set (bm : list Z) (i : Z) (v : Z) : result (list Z) :=
  if i <? 0 then Panic IndexOutOfRange
  else match bm !! Z.to_nat i with
       | Some _ => Ok (<[Z.to_nat i := v]> bm)
       | None => Panic IndexOutOfRange
       end.

(** ** Construction *)

Definition Option_ : Type := Options -> Options.

Definition loadOptions (opts : list Option_) : Options :=
  fold_left (fun o f => f o) opts (mkOptions 0 0).

Definition WithOptions (o : Options) : Option_ := fun _ => o.

Definition WithExpiryDuration (strategy : Z) (d : Z) : Option_ :=
  fun _ => mkOptions strategy d.

(** [make([]uint8, size)] panics on a negative length.  Memory is not
    bounded in the model: any other length is allocated. *)
Definition make_uint8 (sz : Z) : result (list Z) :=
  if sz <? 0 then Panic MakesliceLen else Ok (replicate (Z.to_nat sz) 0).

(** [newCountingBloomFilter]: [None] stands for the nil options pointer.
    The goroutine started for a periodic policy is modelled apart, by the
    tick functions below. *)
Definition newCountingBloomFilter (sz : Z) (opts : option Options)
  : result CountingBloomFilter :=
  let opts' := match opts with
               | None => mkOptions NO_EXPIRATION DefaultCleanIntervalTime
               | Some o => o
               end in
  do bm <- make_uint8 sz;
  Ok (mkCBF bm sz opts' 0 ∅).

Definition NewCountingBloomFilter (sz : Z) (os : list Option_)
  : result CountingBloomFilter :=
  let opts := loadOptions os in
  let opts' := if Duration opts <=? 0
               then mkOptions (ExpiryStrategy opts) DefaultCleanIntervalTime
               else opts in
  newCountingBloomFilter sz (Some opts').

Definition NewDefaultCountingBloomFilter : result CountingBloomFilter :=
  newCountingBloomFilter DefaultBitSize None.

(** ** Add, Check, Remove, RemoveAll *)

(** The loop [for i := 0; i < K; i++] of Add, [n] iterations from [i]. *)
Fixpoint Add_loop (n : nat) (i : Z) (item : string) (sz : Z) (bm : list Z)
  : result (list Z) :=
  match n with
  | O => Ok bm
  | S n' =>
      do hashValue <- index item i sz;
      do c <- bitmap_get bm hashValue;
      do bm' <- bitmap_set bm hashValue (uint8_incr c);
      Add_loop n' (i + 1) item sz bm'
  end.

Definition Add (cbf : CountingBloomFilter) (item : string) (now : Z)
  : result CountingBloomFilter :=
  do bm <- Add_loop (Z.to_nat K) 0 item (size cbf) (bitmap cbf);
  Ok (mkCBF bm (size cbf) (options cbf) (currentIndex cbf)
        (if ExpiryStrategy (options cbf) =? EXPIRY_DURATION
         then <[item := now]> (timestampMap cbf)
         else timestampMap cbf)).

(** [if cbf.bitmap[p] > 0 { cbf.bitmap[p]-- }], as Remove and the lazy sweep
    both write it. *)
Definition decrement (bm : list Z) (p : Z) : result (list Z) :=
  do c <- bitmap_get bm p;
  if 0 <? c then bitmap_set bm p (uint8_decr c) else Ok bm.

(** The loop of Remove. *)
Fixpoint Remove_loop (n : nat) (i : Z) (item : string) (sz : Z) (bm : list Z)
  : result (list Z) :=
  match n with
  | O => Ok bm
  | S n' =>
      do hashValue <- index item i sz;
      do bm' <- decrement bm hashValue;
      Remove_loop n' (i + 1) item sz bm'
  end.

Definition Remove (cbf : CountingBloomFilter) (item : string)
  : result CountingBloomFilter :=
  do bm <- Remove_loop (Z.to_nat K) 0 item (size cbf) (bitmap cbf);
  Ok (mkCBF bm (size cbf) (options cbf) (currentIndex cbf)
        (delete item (timestampMap cbf))).

(** The loop [for i := 0; i < cbf.size; i++ { cbf.bitmap[i] = 0 }]. *)
Fixpoint RemoveAll_loop (n : nat) (i : Z) (bm : list Z) : result (list Z) :=
  match n with
  | O => Ok bm
  | S n' =>
      do bm' <- bitmap_set bm i 0;
      RemoveAll_loop n' (i + 1) bm'
  end.

Definition RemoveAll (cbf : CountingBloomFilter) : result CountingBloomFilter :=
  do bm <- RemoveAll_loop (Z.to_nat (size cbf)) 0 (bitmap cbf);
  Ok (mkCBF bm (size cbf) (options cbf) (currentIndex cbf) ∅).

(** The loop of Check: [false] as soon as an addressed counter is 0. *)
Fixpoint Check_loop (n : nat) (i : Z) (item : string) (sz : Z) (bm : list Z)
  : result bool :=
  match n with
  | O => Ok true
  | S n' =>
      do hashValue <- index item i sz;
      do c <- bitmap_get bm hashValue;
      if c =? 0 then Ok false else Check_loop n' (i + 1) item sz bm
  end.

(** What the read-locked part of Check (RLock ... RUnlock) decides. *)
Inductive check_outcome : Type :=
  | CheckFalse     (* a counter is 0: return false *)
  | CheckTrue      (* return true *)
  | CheckExpired.  (* RUnlock, then cbf.Remove(item), then return false *)

(** [time.Since(timestamp)] with the clock reading [now]. *)
Definition Since (now timestamp : Z) : Z := now - timestamp.

Definition Check_rlocked (cbf : CountingBloomFilter) (item : string) (now : Z)
  : result check_outcome :=
  do all_nonzero <- Check_loop (Z.to_nat K) 0 item (size cbf) (bitmap cbf);
  if all_nonzero then
    if ExpiryStrategy (options cbf) =? EXPIRY_DURATION then
      match timestampMap cbf !! item with
      | Some timestamp =>
          if Duration (options cbf) <? Since now timestamp
          then Ok CheckExpired
          else Ok CheckTrue
      | None => Ok CheckTrue
      end
    else Ok CheckTrue
  else Ok CheckFalse.

(** Check run with no other goroutine in between its two critical sections. *)
Definition Check (cbf : CountingBloomFilter) (item : string) (now : Z)
  : result (bool * CountingBloomFilter) :=
  do o <- Check_rlocked cbf item now;
  match o with
  | CheckFalse => Ok (false, cbf)
  | CheckTrue => Ok (true, cbf)
  | CheckExpired => do cbf' <- Remove cbf item; Ok (false, cbf')
  end.

(** ** The background sweeps: what one timer tick does *)

(** cleanupWithLazy.  [ceil_tenth] is the value of
    [int(math.Ceil(float64(cbf.size) * DefaultBatchRate))], a [float64]
    computation that is taken as given. *)
Fixpoint Lazy_loop (n : nat) (startIndex : Z) (sz : Z) (bm : list Z)
  : result (list Z * Z) :=
  match n with
  | O => Ok (bm, startIndex)
  | S n' =>
      if startIndex <? sz then
        do bm' <- decrement bm startIndex;
        Lazy_loop n' (startIndex + 1) sz bm'
      else Ok (bm, startIndex)
  end.

Definition cleanupWithLazy (ceil_tenth : Z) (cbf : CountingBloomFilter)
  : result CountingBloomFilter :=
  let batchSize := if ceil_tenth <? 1 then 1000 else ceil_tenth in
  do r <- Lazy_loop (Z.to_nat batchSize) (currentIndex cbf) (size cbf) (bitmap cbf);
  let startIndex := snd r in
  Ok (mkCBF (fst r) (size cbf) (options cbf)
        (if size cbf <=? startIndex then 0 else startIndex)
        (timestampMap cbf)).

(** cleanupWithReset *)
Definition cleanupWithReset (cbf : CountingBloomFilter) : result CountingBloomFilter :=
  RemoveAll cbf.

(** cleanupWithExpiry.  [totalCount := 20]; the test
    [float64(evictedCount)/float64(totalCount) > 0.25] is exact on the
    counts 0..20, where it says [20 < 4 * evictedCount]. *)
Definition totalCount : Z := 20.

Definition over_quarter (evictedCount : Z) : bool := totalCount <? 4 * evictedCount.

(** The body of [for key := range cbf.timestampMap] for one key. *)
Definition Expiry_visit (cbf : CountingBloomFilter) (key : string) (now : Z)
  (evictedCount : Z) : result (CountingBloomFilter * Z) :=
  if decide (key = EmptyString) then Ok (cbf, evictedCount)
  else
    do r <- Check cbf key now;
    if fst r then
      do p <- index key 0 (size (snd r));
      do c <- bitmap_get (bitmap (snd r)) p;
      if 0 <? c then
        do cbf' <- Remove (snd r) key;
        Ok (cbf', evictedCount + 1)
      else Ok (snd r, evictedCount)
    else Ok (snd r, evictedCount).

(** The range loop over the keys in the order [keys] in which the run time
    enumerates the map, left after [totalCount] keys. *)
Fixpoint Expiry_range (keys : list string) (i : Z) (evictedCount : Z) (now : Z)
  (cbf : CountingBloomFilter) : result (CountingBloomFilter * Z) :=
  match keys with
  | [] => Ok (cbf, evictedCount)
  | key :: rest =>
      do r <- Expiry_visit cbf key now evictedCount;
      if totalCount <=? i + 1 then Ok r
      else Expiry_range rest (i + 1) (snd r) now (fst r)
  end.

Definition Expiry_pass (keys : list string) (now : Z) (cbf : CountingBloomFilter)
  : result (CountingBloomFilter * Z) :=
  Expiry_range keys 0 0 now cbf.

(** The goroutine of cleanupWithExpiry as a machine.  The loop head is the
    [select] on the ticker channel; [continue] and the end of the loop body
    both lead back to it. *)
Inductive sweep_pc : Type :=
  | AtSelect                       (* blocked in [<-cbf.expiryTicker.C] *)
  | AfterPass (evictedCount : Z).  (* at [if ... > 0.25] *)

Record sweeper : Type := mkSweeper {
  pc : sweep_pc;
  ticks : list Z;      (* instants at which the ticker still fires *)
  passes : nat;        (* range loops run so far *)
  filter : CountingBloomFilter
}.

(** One step; [None] when the goroutine is blocked for want of a tick.
    [order] gives the enumeration of the map at the start of a pass. *)
Definition sweep_step (order : CountingBloomFilter -> list string) (w : sweeper)
  : option (result sweeper) :=
  match pc w with
  | AtSelect =>
      match ticks w with
      | [] => None
      | now :: later =>
          Some (do r <- Expiry_pass (order (filter w)) now (filter w);
                Ok (mkSweeper (AfterPass (snd r)) later (S (passes w)) (fst r)))
      end
  | AfterPass evictedCount =>
      if over_quarter evictedCount
      then (* continue *) Some (Ok (mkSweeper AtSelect (ticks w) (passes w) (filter w)))
      else (* end of the loop body *)
           Some (Ok (mkSweeper AtSelect (ticks w) (passes w) (filter w)))
  end.

(** Run until blocked, for at most [fuel] steps. *)
Fixpoint sweep_run (fuel : nat) (order : CountingBloomFilter -> list string)
  (w : sweeper) : result sweeper :=
  match fuel with
  | O => Ok w
  | S fuel' =>
      match sweep_step order w with
      | None => Ok w
      | Some r => do w' <- r; sweep_run fuel' order w'
      end
  end.

(** The enumeration used in the examples: the keys in the order of the map's
    list of bindings. *)
Definition keys_of (cbf : CountingBloomFilter) : list string :=
  (map_to_list (timestampMap cbf)).*1.

(** ** Sequences of operations on one filter *)

Inductive op : Type :=
  | OpAdd (item : string) (now : Z)
  | OpCheck (item : string) (now : Z)
  | OpRemove (item : string)
  | OpRemoveAll
  | OpLazyTick (ceil_tenth : Z)
  | OpResetTick
  | OpExpiryTick (keys : list string) (now : Z).

Definition exec (cbf : CountingBloomFilter) (o : op) : result CountingBloomFilter :=
  match o with
  | OpAdd item now => Add cbf item now
  | OpCheck item now => do r <- Check cbf item now; Ok (snd r)
  | OpRemove item => Remove cbf item
  | OpRemoveAll => RemoveAll cbf
  | OpLazyTick ceil_tenth => cleanupWithLazy ceil_tenth cbf
  | OpResetTick => cleanupWithReset cbf
  | OpExpiryTick keys now => do r <- Expiry_pass keys now cbf; Ok (fst r)
  end.

Fixpoint run (ops : list op) (cbf : CountingBloomFilter) : result CountingBloomFilter :=
  match ops with
  | [] => Ok cbf
  | o :: rest => do cbf' <- exec cbf o; run rest cbf'
  end.

Definition is_add (o : op) : bool :=
  match o with OpAdd _ _ => true | _ => false end.

(** ** Concurrent callers: interleavings of critical sections *)

Inductive call : Type :=
  | CallAdd (item : string) (now : Z)
  | CallCheck (item : string) (now : Z)
  | CallRemove (item : string)
  | CallRemoveAll.

Inductive thread : Type :=
  | Pending (c : call)           (* the call has not taken the lock yet *)
  | Escalating (item : string)   (* in Check, between RUnlock and Remove's Lock *)
  | Returned (ret : option bool).

(** The next critical section of a goroutine, run with the lock held. *)
Definition thread_step (cbf : CountingBloomFilter) (t : thread)
  : result (CountingBloomFilter * thread) :=
  match t with
  | Pending (CallAdd item now) =>
      do cbf' <- Add cbf item now; Ok (cbf', Returned None)
  | Pending (CallCheck item now) =>
      do o <- Check_rlocked cbf item now;
      Ok (cbf, match o with
               | CheckFalse => Returned (Some false)
               | CheckTrue => Returned (Some true)
               | CheckExpired => Escalating item
               end)
  | Pending (CallRemove item) =>
      do cbf' <- Remove cbf item; Ok (cbf', Returned None)
  | Pending CallRemoveAll =>
      do cbf' <- RemoveAll cbf; Ok (cbf', Returned None)
  | Escalating item =>
      do cbf' <- Remove cbf item; Ok (cbf', Returned (Some false))
  | Returned ret => Ok (cbf, Returned ret)
  end.

(** [sched] names, step by step, the goroutine that gets the lock next. *)
Fixpoint schedule (sched : list nat) (cbf : CountingBloomFilter) (ts : list thread)
  : result (CountingBloomFilter * list thread) :=
  match sched with
  | [] => Ok (cbf, ts)
  | tid :: rest =>
      match ts !! tid with
      | None => schedule rest cbf ts
      | Some t =>
          do r <- thread_step cbf t;
          schedule rest (fst r) (<[tid := snd r]> ts)
      end
  end.

(** ** Predicates used in the statements *)

(** The filter has the shape the constructor gives it for a positive size. *)
Definition shaped (cbf : CountingBloomFilter) : Prop :=
  0 < size cbf < two64 /\
  length (bitmap cbf) = Z.to_nat (size cbf) /\
  0 <= currentIndex cbf.

Definition uint8_range (c : Z) : Prop := 0 <= c < 256.

Definition wf (cbf : CountingBloomFilter) : Prop :=
  shaped cbf /\ Forall uint8_range (bitmap cbf).

(** What every operation keeps. *)
Definition evolves (cbf cbf' : CountingBloomFilter) : Prop :=
  size cbf' = size cbf /\
  options cbf' = options cbf /\
  length (bitmap cbf') = length (bitmap cbf) /\
  (Forall uint8_range (bitmap cbf) -> Forall uint8_range (bitmap cbf')) /\
  (0 <= currentIndex cbf -> 0 <= currentIndex cbf') /\
  (ExpiryStrategy (options cbf) <> EXPIRY_DURATION ->
   timestampMap cbf = ∅ -> timestampMap cbf' = ∅).

(** What every operation other than Add keeps: a counter at 0 stays at 0 and
    no key enters the timestamp index. *)
Definition decays (cbf cbf' : CountingBloomFilter) : Prop :=
  (forall j : nat, bitmap cbf !! j = Some 0 -> bitmap cbf' !! j = Some 0) /\
  (timestampMap cbf = ∅ -> timestampMap cbf' = ∅).

(** The index of section 4.1 in the words of the specification: the 64-bit
    FNV-1a hash of the bytes (offset basis, then xor and multiply by the FNV
    prime for each octet), plus the trial, modulo the size. *)
Definition spec_fnv1a64 (octets : list Z) : Z :=
  fold_left (fun h o => (Z.lxor h o * 1099511628211) mod 2 ^ 64) octets
    14695981039346656037.

Definition spec_index (key : string) (trial : Z) (sz : Z) : Z :=
  ((spec_fnv1a64 (bytes_of key) + trial) mod 2 ^ 64) mod sz.

(** Every counter addressed by [k] is at least 1. *)
Definition positive_at (k : string) (sz : Z) (bm : list Z) : Prop :=
  forall trial, 0 <= trial < K ->
    exists p c, index k trial sz = Ok p /\ bm !! Z.to_nat p = Some c /\ 1 <= c.

(** [bm'] has the counters of [bm], each raised by at most [n]. *)
Definition grows (n : Z) (bm bm' : list Z) : Prop :=
  length bm' = length bm /\
  forall (j : nat) (c : Z), bm !! j = Some c ->
    exists c', bm' !! j = Some c' /\ c <= c' <= c + n.

Definition OpAdds (adds : list (string * Z)) : list op :=
  map (fun a => OpAdd (fst a) (snd a)) adds.

(** Every use of the filter panics on the reduction modulo zero. *)
Definition panics_on_use (cbf : CountingBloomFilter) : Prop :=
  forall (item : string) (now : Z),
    Add cbf item now = Panic DivideByZero /\
    Check cbf item now = Panic DivideByZero /\
    Remove cbf item = Panic DivideByZero.

(** ** Sample inputs *)

Definition sample_lazy_filter : CountingBloomFilter :=
  mkCBF [1; 0; 2; 1] 4 (mkOptions LAZY_EXPIRATION 5) 3 {[ "k"%string := 7 ]}.

Definition sample_expiry_filter : CountingBloomFilter :=
  mkCBF [3; 0; 255; 1] 4 (mkOptions EXPIRY_DURATION 5) 2 {[ "k"%string := 7 ]}.

Definition sample_low_filter : CountingBloomFilter :=
  mkCBF [3; 1; 40; 1; 2; 2] 6 (mkOptions EXPIRY_DURATION 5) 2 {[ "k"%string := 7 ]}.

Definition names25 : list string :=
  ["k00"; "k01"; "k02"; "k03"; "k04"; "k05"; "k06"; "k07"; "k08"; "k09";
   "k10"; "k11"; "k12"; "k13"; "k14"; "k15"; "k16"; "k17"; "k18"; "k19";
   "k20"; "k21"; "k22"; "k23"; "k24"]%string.

(** ** Counting the trials that address a slot *)

(** 1 when trial [t] of [item] addresses slot [j], else 0. *)
Definition hit (item : string) (sz : Z) (t : Z) (j : nat) : Z :=
  match index item t sz with
  | Ok p => if p =? Z.of_nat j then 1 else 0
  | Panic _ => 0
  end.

(** The number of trials among [i, i + n) that address slot [j]. *)
Fixpoint hits (item : string) (sz : Z) (n : nat) (i : Z) (j : nat) : Z :=
  match n with
  | O => 0
  | S n' => hit item sz i j + hits item sz n' (i + 1) j
  end.

(** The trials of one Add or one Remove. *)
Definition hits_of (item : string) (sz : Z) (j : nat) : Z :=
  hits item sz (Z.to_nat K) 0 j.

(** The test of Check on the timestamp index: the policy is EXPIRY_DURATION
    and the entry of [key] is older than the duration. *)
Definition expired (cbf : CountingBloomFilter) (key : string) (now : Z) : bool :=
  (ExpiryStrategy (options cbf) =? EXPIRY_DURATION) &&
  match timestampMap cbf !! key with
  | Some timestamp => Duration (options cbf) <? Since now timestamp
  | None => false
  end.

(** Every counter leaves room for the [K] increments of one Add. *)
Definition below_top (cbf : CountingBloomFilter) : Prop :=
  Forall (fun c => c + K <= 255) (bitmap cbf).

(** A counter after one guarded decrement. *)
Definition floor_decr (c : Z) : Z := Z.max 0 (c - 1).

(** Closed statements about sample runs are settled by evaluation, one
    conjunct at a time. *)
Ltac by_evaluation :=
  repeat (split; [vm_compute; reflexivity|]); vm_compute; reflexivity.

Create HintDb cbf.

(** ** The hash scheme *)

Lemma uint64_small (x : Z) : 0 <= x < two64 -> uint64 x = x.
Proof. intros H. unfold uint64. now apply Z.mod_small. Qed.

Lemma two64_pos : 0 < two64.
Proof. reflexivity. Qed.

Lemma hash_range (item : string) (i : Z) : 0 <= hash item i < two64.
Proof. unfold hash, add64. apply Z.mod_pos_bound, two64_pos. Qed.

Lemma sum64a_Write_fold (data : list Z) (h : Z) :
  sum64a_Write h data =
  fold_left (fun h o => (Z.lxor h o * 1099511628211) mod 2 ^ 64) data h.
Proof.
  revert h. induction data as [|c rest IH]; intros h; simpl; [reflexivity|].
  rewrite IH. reflexivity.
Qed.

Lemma fnv1a64_spec (data : list Z) : fnv1a64 data = spec_fnv1a64 data.
Proof. unfold fnv1a64. rewrite sum64a_Write_fold. reflexivity. Qed.

Lemma hash_spec (item : string) (i : Z) :
  hash item i = (spec_fnv1a64 (bytes_of item) + i) mod 2 ^ 64.
Proof.
  unfold hash, add64, uint64. rewrite fnv1a64_spec.
  change two64 with (2 ^ 64). now rewrite Zplus_mod_idemp_r.
Qed.

Lemma index_positive_size (item : string) (i sz : Z) :
  0 < sz < two64 ->
  index item i sz = Ok (hash item i mod sz) /\ 0 <= hash item i mod sz < sz.
Proof.
  intros Hsz. unfold index, umod64. rewrite uint64_small by lia.
  destruct (Z.eqb_spec sz 0) as [->|_]; [lia|].
  split; [reflexivity|]. apply Z.mod_pos_bound. lia.
Qed.

Lemma index_size_zero (item : string) (i : Z) : index item i 0 = Panic DivideByZero.
Proof. reflexivity. Qed.

Lemma index_Ok_nonneg (item : string) (i sz p : Z) : index item i sz = Ok p -> 0 <= p.
Proof.
  unfold index, umod64. destruct (Z.eqb_spec (uint64 sz) 0) as [|Hne]; [discriminate|].
  intros [= <-]. apply Z.mod_pos_bound.
  assert (0 <= uint64 sz < two64) by (apply Z.mod_pos_bound, two64_pos). lia.
Qed.

(** Published FNV-1a test vectors. *)
Example fnv1a64_empty : fnv1a64 (bytes_of "") = 0xcbf29ce484222325.
Proof. reflexivity. Qed.

Example fnv1a64_a : fnv1a64 (bytes_of "a") = 0xaf63dc4c8601ec8c.
Proof. reflexivity. Qed.

Example fnv1a64_foobar : fnv1a64 (bytes_of "foobar") = 0x85944171f73967e8.
Proof. vm_compute. reflexivity. Qed.

(** ** The slice and the per-position updates *)

Lemma bitmap_get_Ok (bm : list Z) (p c : Z) :
  bitmap_get bm p = Ok c <-> 0 <= p /\ bm !! Z.to_nat p = Some c.
Proof.
  unfold bitmap_get. destruct (Z.ltb_spec p 0) as [Hlt|Hge].
  - split; [discriminate|lia].
  - destruct (bm !! Z.to_nat p) as [c'|]; split.
    + intros [= ->]. auto.
    + intros [_ [= ->]]. reflexivity.
    + discriminate.
    + intros [_ ?]. discriminate.
Qed.

Lemma bitmap_get_in_range (bm : list Z) (p : Z) :
  0 <= p < Z.of_nat (length bm) -> exists c, bitmap_get bm p = Ok c.
Proof.
  intros Hp. destruct (lookup_lt_is_Some_2 bm (Z.to_nat p)) as [c Hc]; [lia|].
  exists c. apply bitmap_get_Ok. split; [lia|assumption].
Qed.

Lemma bitmap_set_in_range (bm : list Z) (p v : Z) :
  0 <= p < Z.of_nat (length bm) -> bitmap_set bm p v = Ok (<[Z.to_nat p := v]> bm).
Proof.
  intros Hp. unfold bitmap_set. destruct (Z.ltb_spec p 0); [lia|].
  destruct (lookup_lt_is_Some_2 bm (Z.to_nat p)) as [c Hc]; [lia|].
  now rewrite Hc.
Qed.

Lemma uint8_incr_range (c : Z) : uint8_range (uint8_incr c).
Proof. unfold uint8_range, uint8_incr. apply Z.mod_pos_bound. lia. Qed.

Lemma uint8_decr_positive (c : Z) : 0 < c < 256 -> uint8_decr c = c - 1.
Proof. intros H. unfold uint8_decr. apply Z.mod_small. lia. Qed.

Lemma uint8_incr_below_top (c : Z) : 0 <= c < 255 -> uint8_incr c = c + 1.
Proof. intros H. unfold uint8_incr. apply Z.mod_small. lia. Qed.

(** The increment wraps at the top of the [uint8] range. *)
Lemma uint8_incr_top : uint8_incr 255 = 0.
Proof. reflexivity. Qed.

(** What a guarded decrement does to the slice. *)
Lemma decrement_in_range (bm : list Z) (p : Z) :
  0 <= p < Z.of_nat (length bm) ->
  exists bm', decrement bm p = Ok bm' /\
    length bm' = length bm /\
    (Forall uint8_range bm -> Forall uint8_range bm') /\
    (forall j : nat, bm !! j = Some 0 -> bm' !! j = Some 0).
Proof.
  intros Hp. unfold decrement.
  destruct (bitmap_get_in_range bm p Hp) as [c Hc]. rewrite Hc. simpl.
  apply bitmap_get_Ok in Hc as [_ Hc].
  destruct (Z.ltb_spec 0 c) as [Hpos|Hzero].
  - rewrite bitmap_set_in_range by assumption.
    eexists; split; [reflexivity|]. split; [apply length_insert|]. split.
    + intros Hall. apply Forall_insert; [assumption|].
      pose proof (proj1 (Forall_lookup _ _) Hall _ _ Hc) as Hr.
      unfold uint8_range in *. rewrite uint8_decr_positive by lia. lia.
    + intros j Hj. destruct (decide (j = Z.to_nat p)) as [->|Hne].
      * rewrite Hc in Hj. injection Hj as ->. lia.
      * rewrite list_lookup_insert_ne by congruence. assumption.
  - exists bm. auto.
Qed.

Lemma decrement_at_zero (bm : list Z) (p : Z) :
  0 <= p -> bm !! Z.to_nat p = Some 0 -> decrement bm p = Ok bm.
Proof.
  intros Hp Hz. unfold decrement.
  rewrite (proj2 (bitmap_get_Ok bm p 0)) by auto. reflexivity.
Qed.

(** ** The loops of Add, Remove, RemoveAll, Check and the lazy sweep *)

Section Loops.
Variables (item : string) (sz : Z).
Hypothesis Hsz : 0 < sz < two64.

Lemma index_in_slice (i : Z) (bm : list Z) :
  length bm = Z.to_nat sz ->
  exists p, index item i sz = Ok p /\ 0 <= p < Z.of_nat (length bm).
Proof.
  intros Hlen. destruct (index_positive_size item i sz Hsz) as [Hi Hr].
  eexists; split; [exact Hi|]. lia.
Qed.

Lemma Add_loop_ok (n : nat) : forall (i : Z) (bm : list Z),
  length bm = Z.to_nat sz ->
  exists bm', Add_loop n i item sz bm = Ok bm' /\
    length bm' = length bm /\
    (Forall uint8_range bm -> Forall uint8_range bm').
Proof.
  induction n as [|n IH]; intros i bm Hlen; simpl.
  - exists bm. auto.
  - destruct (index_in_slice i bm Hlen) as (p & -> & Hp). simpl.
    destruct (bitmap_get_in_range bm p Hp) as [c ->]. simpl.
    rewrite bitmap_set_in_range by assumption. simpl.
    destruct (IH (i + 1) (<[Z.to_nat p := uint8_incr c]> bm)) as (bm' & -> & Hl & Hr).
    { now rewrite length_insert. }
    exists bm'. split; [reflexivity|]. rewrite length_insert in Hl. split; [assumption|].
    intros Hall. apply Hr, Forall_insert; [assumption|apply uint8_incr_range].
Qed.

Lemma Remove_loop_ok (n : nat) : forall (i : Z) (bm : list Z),
  length bm = Z.to_nat sz ->
  exists bm', Remove_loop n i item sz bm = Ok bm' /\
    length bm' = length bm /\
    (Forall uint8_range bm -> Forall uint8_range bm') /\
    (forall j : nat, bm !! j = Some 0 -> bm' !! j = Some 0).
Proof.
  induction n as [|n IH]; intros i bm Hlen; simpl.
  - exists bm. auto.
  - destruct (index_in_slice i bm Hlen) as (p & -> & Hp). simpl.
    destruct (decrement_in_range bm p Hp) as (bm1 & -> & Hl1 & Hr1 & Hz1). simpl.
    destruct (IH (i + 1) bm1) as (bm' & -> & Hl & Hr & Hz); [congruence|].
    exists bm'. split; [reflexivity|]. split; [congruence|]. split; auto.
Qed.

Lemma Remove_loop_zero (n : nat) : forall (i : Z) (bm : list Z),
  (forall t, i <= t < i + Z.of_nat n ->
     exists p, index item t sz = Ok p /\ bm !! Z.to_nat p = Some 0) ->
  Remove_loop n i item sz bm = Ok bm.
Proof.
  induction n as [|n IH]; intros i bm Hall; simpl; [reflexivity|].
  destruct (Hall i) as (p & Hp & Hz); [lia|]. rewrite Hp. simpl.
  rewrite decrement_at_zero; [|eapply index_Ok_nonneg; eassumption|assumption].
  simpl. apply IH. intros t Ht. apply Hall. lia.
Qed.

Lemma Check_loop_ok (n : nat) : forall (i : Z) (bm : list Z),
  length bm = Z.to_nat sz ->
  exists b, Check_loop n i item sz bm = Ok b.
Proof.
  induction n as [|n IH]; intros i bm Hlen; simpl.
  - exists true. reflexivity.
  - destruct (index_in_slice i bm Hlen) as (p & -> & Hp). simpl.
    destruct (bitmap_get_in_range bm p Hp) as [c ->]. simpl.
    destruct (c =? 0); [exists false; reflexivity|]. now apply IH.
Qed.

Lemma Check_loop_all_zero (n : nat) (i : Z) (bm : list Z) :
  length bm = Z.to_nat sz ->
  (forall j : nat, (j < length bm)%nat -> bm !! j = Some 0) ->
  Check_loop (S n) i item sz bm = Ok false.
Proof.
  intros Hlen Hz. simpl.
  destruct (index_in_slice i bm Hlen) as (p & -> & Hp). simpl.
  rewrite (proj2 (bitmap_get_Ok bm p 0)); [reflexivity|].
  split; [lia|]. apply Hz. lia.
Qed.

Lemma Lazy_loop_ok (n : nat) : forall (startIndex : Z) (bm : list Z),
  0 <= startIndex -> length bm = Z.to_nat sz ->
  exists bm' e, Lazy_loop n startIndex sz bm = Ok (bm', e) /\
    length bm' = length bm /\
    (Forall uint8_range bm -> Forall uint8_range bm') /\
    (forall j : nat, bm !! j = Some 0 -> bm' !! j = Some 0) /\
    startIndex <= e.
Proof.
  induction n as [|n IH]; intros s bm Hs Hlen; simpl.
  - exists bm, s. repeat split; auto; lia.
  - destruct (Z.ltb_spec s sz) as [Hlt|Hge];
      [|exists bm, s; repeat split; auto; lia].
    destruct (decrement_in_range bm s) as (bm1 & -> & Hl1 & Hr1 & Hz1); [lia|]. simpl.
    destruct (IH (s + 1) bm1) as (bm' & e & -> & Hl & Hr & Hz & He);
      [lia|congruence|].
    exists bm', e. split; [reflexivity|]. split; [congruence|].
    repeat split; auto; lia.
Qed.
End Loops.

Lemma RemoveAll_loop_ok (n : nat) : forall (i : Z) (bm : list Z),
  0 <= i -> i + Z.of_nat n <= Z.of_nat (length bm) ->
  exists bm', RemoveAll_loop n i bm = Ok bm' /\
    length bm' = length bm /\
    (forall j : nat, (Z.to_nat i <= j < Z.to_nat i + n)%nat -> bm' !! j = Some 0) /\
    (forall j : nat, (j < Z.to_nat i)%nat -> bm' !! j = bm !! j).
Proof.
  induction n as [|n IH]; intros i bm Hi Hn; simpl.
  - exists bm. split; [reflexivity|]. split; [reflexivity|]. split; [lia|auto].
  - rewrite bitmap_set_in_range by lia. simpl.
    destruct (IH (i + 1) (<[Z.to_nat i := 0]> bm)) as (bm' & -> & Hl & Hz & Hk).
    { lia. } { rewrite length_insert. lia. }
    exists bm'. split; [reflexivity|]. rewrite length_insert in Hl. split; [assumption|].
    split.
    + intros j Hj. destruct (decide (j = Z.to_nat i)) as [->|Hne].
      * rewrite Hk by lia. apply list_lookup_insert_eq. lia.
      * apply Hz. lia.
    + intros j Hj. rewrite Hk by lia. apply list_lookup_insert_ne. lia.
Qed.

(** ** Each operation on a shaped filter: it returns, and what it keeps *)

Lemma evolves_refl (cbf : CountingBloomFilter) : evolves cbf cbf.
Proof. unfold evolves. repeat split; auto. Qed.

Lemma evolves_trans (a b c : CountingBloomFilter) :
  evolves a b -> evolves b c -> evolves a c.
Proof.
  unfold evolves. intros (S1 & O1 & L1 & R1 & C1 & T1) (S2 & O2 & L2 & R2 & C2 & T2).
  rewrite O1 in T2. repeat split; try congruence; auto.
Qed.

Lemma decays_refl (cbf : CountingBloomFilter) : decays cbf cbf.
Proof. unfold decays. auto. Qed.

Lemma decays_trans (a b c : CountingBloomFilter) :
  decays a b -> decays b c -> decays a c.
Proof. unfold decays. intros [Z1 T1] [Z2 T2]. split; auto. Qed.

#[local] Hint Resolve evolves_refl decays_refl : cbf.

Lemma evolves_shaped (cbf cbf' : CountingBloomFilter) :
  shaped cbf -> evolves cbf cbf' -> shaped cbf'.
Proof.
  unfold shaped, evolves. intros (Hs & Hl & Hc) (S1 & _ & L1 & _ & C1 & _).
  rewrite S1, L1. auto.
Qed.

Lemma evolves_wf (cbf cbf' : CountingBloomFilter) :
  wf cbf -> evolves cbf cbf' -> wf cbf'.
Proof.
  intros [Hs Hr] He. split; [eapply evolves_shaped; eassumption|].
  now apply He.
Qed.

Lemma Add_ok (cbf : CountingBloomFilter) (item : string) (now : Z) :
  shaped cbf -> exists cbf', Add cbf item now = Ok cbf' /\ evolves cbf cbf'.
Proof.
  intros (Hs & Hl & Hc). unfold Add.
  destruct (Add_loop_ok item (size cbf) Hs (Z.to_nat K) 0 (bitmap cbf) Hl)
    as (bm & -> & Hlen & Hr).
  simpl. eexists; split; [reflexivity|]. unfold evolves; simpl.
  repeat split; auto.
  intros Hne Hempty. destruct (Z.eqb_spec (ExpiryStrategy (options cbf)) EXPIRY_DURATION);
    [contradiction|assumption].
Qed.

Lemma Remove_ok (cbf : CountingBloomFilter) (item : string) :
  shaped cbf ->
  exists cbf', Remove cbf item = Ok cbf' /\ evolves cbf cbf' /\ decays cbf cbf'.
Proof.
  intros (Hs & Hl & Hc). unfold Remove.
  destruct (Remove_loop_ok item (size cbf) Hs (Z.to_nat K) 0 (bitmap cbf) Hl)
    as (bm & -> & Hlen & Hr & Hz).
  simpl. eexists; split; [reflexivity|]. unfold evolves, decays; simpl.
  repeat split; auto.
  - intros _ ->. apply delete_empty.
  - intros ->. apply delete_empty.
Qed.

Lemma RemoveAll_ok (cbf : CountingBloomFilter) :
  shaped cbf ->
  exists bm, RemoveAll cbf = Ok (mkCBF bm (size cbf) (options cbf) (currentIndex cbf) ∅) /\
    length bm = length (bitmap cbf) /\
    (forall j : nat, (j < length bm)%nat -> bm !! j = Some 0).
Proof.
  intros (Hs & Hl & Hc). unfold RemoveAll.
  destruct (RemoveAll_loop_ok (Z.to_nat (size cbf)) 0 (bitmap cbf)) as (bm & -> & Hlen & Hz & _).
  { lia. } { lia. }
  simpl. exists bm. split; [reflexivity|]. split; [assumption|].
  intros j Hj. apply Hz. simpl. lia.
Qed.

Lemma RemoveAll_evolves (cbf : CountingBloomFilter) :
  shaped cbf ->
  exists cbf', RemoveAll cbf = Ok cbf' /\ evolves cbf cbf' /\ decays cbf cbf'.
Proof.
  intros Hsh. destruct (RemoveAll_ok cbf Hsh) as (bm & -> & Hlen & Hz).
  eexists; split; [reflexivity|]. unfold evolves, decays; simpl.
  repeat split; auto.
  - intros _. apply Forall_lookup. intros j c Hj.
    rewrite Hz in Hj by (eapply lookup_lt_Some; eassumption).
    injection Hj as <-. unfold uint8_range. lia.
  - intros j Hj. apply Hz. rewrite Hlen. eapply lookup_lt_Some; eassumption.
Qed.

Lemma Check_rlocked_ok (cbf : CountingBloomFilter) (item : string) (now : Z) :
  shaped cbf -> exists o, Check_rlocked cbf item now = Ok o.
Proof.
  intros (Hs & Hl & Hc). unfold Check_rlocked.
  destruct (Check_loop_ok item (size cbf) Hs (Z.to_nat K) 0 (bitmap cbf) Hl) as [b ->].
  simpl. destruct b; [|eauto].
  destruct (ExpiryStrategy (options cbf) =? EXPIRY_DURATION); [|eauto].
  destruct (timestampMap cbf !! item) as [t|]; [|eauto].
  destruct (Duration (options cbf) <? Since now t); eauto.
Qed.

Lemma Check_ok (cbf : CountingBloomFilter) (item : string) (now : Z) :
  shaped cbf ->
  exists b cbf', Check cbf item now = Ok (b, cbf') /\ evolves cbf cbf' /\ decays cbf cbf'.
Proof.
  intros Hsh. unfold Check.
  destruct (Check_rlocked_ok cbf item now Hsh) as [o ->]. simpl.
  destruct o.
  - exists false, cbf. auto with cbf.
  - exists true, cbf. auto with cbf.
  - destruct (Remove_ok cbf item Hsh) as (cbf' & -> & He & Hd). simpl.
    exists false, cbf'. auto.
Qed.

Lemma cleanupWithLazy_ok (ceil_tenth : Z) (cbf : CountingBloomFilter) :
  shaped cbf ->
  exists cbf', cleanupWithLazy ceil_tenth cbf = Ok cbf' /\
    evolves cbf cbf' /\ decays cbf cbf'.
Proof.
  intros (Hs & Hl & Hc). unfold cleanupWithLazy.
  destruct (Lazy_loop_ok (size cbf) Hs
              (Z.to_nat (if ceil_tenth <? 1 then 1000 else ceil_tenth))
              (currentIndex cbf) (bitmap cbf) Hc Hl)
    as (bm & e & -> & Hlen & Hr & Hz & He).
  simpl. eexists; split; [reflexivity|]. unfold evolves, decays; simpl.
  repeat split; auto.
  intros _. destruct (size cbf <=? e); lia.
Qed.

Lemma Expiry_visit_ok (cbf : CountingBloomFilter) (key : string) (now e : Z) :
  shaped cbf ->
  exists cbf' e', Expiry_visit cbf key now e = Ok (cbf', e') /\
    evolves cbf cbf' /\ decays cbf cbf'.
Proof.
  intros Hsh. unfold Expiry_visit.
  destruct (decide (key = EmptyString)) as [_|_].
  { exists cbf, e. auto with cbf. }
  destruct (Check_ok cbf key now Hsh) as (b & cbf1 & -> & He1 & Hd1). simpl.
  destruct b; [|exists cbf1, e; auto].
  pose proof (evolves_shaped _ _ Hsh He1) as Hsh1.
  pose proof Hsh1 as (Hs1 & Hl1 & Hc1).
  destruct (index_in_slice key (size cbf1) Hs1 0 (bitmap cbf1) Hl1) as (p & -> & Hp).
  simpl. destruct (bitmap_get_in_range _ _ Hp) as [c ->]. simpl.
  destruct (0 <? c); [|exists cbf1, e; auto].
  destruct (Remove_ok cbf1 key Hsh1) as (cbf2 & -> & He2 & Hd2).
  simpl. exists cbf2, (e + 1). split; [reflexivity|].
  split; [eapply evolves_trans|eapply decays_trans]; eassumption.
Qed.

Lemma Expiry_range_ok (keys : list string) : forall (i e now : Z) (cbf : CountingBloomFilter),
  shaped cbf ->
  exists cbf' e', Expiry_range keys i e now cbf = Ok (cbf', e') /\
    evolves cbf cbf' /\ decays cbf cbf'.
Proof.
  induction keys as [|key rest IH]; intros i e now cbf Hsh; simpl.
  - exists cbf, e. auto with cbf.
  - destruct (Expiry_visit_ok cbf key now e Hsh) as (cbf1 & e1 & -> & He1 & Hd1). simpl.
    destruct (totalCount <=? i + 1); [exists cbf1, e1; auto|].
    destruct (IH (i + 1) e1 now cbf1) as (cbf2 & e2 & -> & He2 & Hd2).
    { eapply evolves_shaped; eassumption. }
    exists cbf2, e2. split; [reflexivity|].
    split; [eapply evolves_trans|eapply decays_trans]; eassumption.
Qed.

Lemma exec_ok (cbf : CountingBloomFilter) (o : op) :
  shaped cbf ->
  exists cbf', exec cbf o = Ok cbf' /\ evolves cbf cbf' /\
    (is_add o = false -> decays cbf cbf').
Proof.
  intros Hsh. destruct o as [item now|item now|item| |ct| |keys now]; simpl.
  - destruct (Add_ok cbf item now Hsh) as (cbf' & -> & He).
    exists cbf'. split; [reflexivity|]. split; [assumption|discriminate].
  - destruct (Check_ok cbf item now Hsh) as (b & cbf' & -> & He & Hd). simpl. eauto.
  - destruct (Remove_ok cbf item Hsh) as (cbf' & -> & He & Hd). eauto.
  - destruct (RemoveAll_evolves cbf Hsh) as (cbf' & -> & He & Hd). eauto.
  - destruct (cleanupWithLazy_ok ct cbf Hsh) as (cbf' & -> & He & Hd). eauto.
  - unfold cleanupWithReset.
    destruct (RemoveAll_evolves cbf Hsh) as (cbf' & -> & He & Hd). eauto.
  - unfold Expiry_pass.
    destruct (Expiry_range_ok keys 0 0 now cbf Hsh) as (cbf' & e' & -> & He & Hd).
    simpl. eauto.
Qed.

Lemma run_ok (ops : list op) : forall cbf : CountingBloomFilter,
  shaped cbf ->
  exists cbf', run ops cbf = Ok cbf' /\ evolves cbf cbf' /\
    (forallb (fun o => negb (is_add o)) ops = true -> decays cbf cbf').
Proof.
  induction ops as [|o rest IH]; intros cbf Hsh; simpl.
  - exists cbf. auto with cbf.
  - destruct (exec_ok cbf o Hsh) as (cbf1 & -> & He1 & Hd1). simpl.
    destruct (IH cbf1) as (cbf2 & -> & He2 & Hd2).
    { eapply evolves_shaped; eassumption. }
    exists cbf2. split; [reflexivity|]. split; [eapply evolves_trans; eassumption|].
    intros Hq. apply andb_prop in Hq as [Ho Hrest].
    eapply decays_trans; [apply Hd1|apply Hd2; assumption].
    now destruct (is_add o).
Qed.

(** ** Construction *)

Lemma newCountingBloomFilter_ok (sz : Z) (opts : option Options) :
  0 < sz < two64 ->
  exists cbf, newCountingBloomFilter sz opts = Ok cbf /\ wf cbf /\
    size cbf = sz /\
    bitmap cbf = replicate (Z.to_nat sz) 0 /\
    timestampMap cbf = ∅ /\
    options cbf = match opts with
                  | None => mkOptions NO_EXPIRATION DefaultCleanIntervalTime
                  | Some o => o
                  end.
Proof.
  intros Hsz. unfold newCountingBloomFilter, make_uint8.
  destruct (Z.ltb_spec sz 0); [lia|]. simpl.
  eexists; split; [reflexivity|]. unfold wf, shaped; simpl.
  repeat split; auto; try lia.
  - apply length_replicate.
  - apply Forall_replicate. unfold uint8_range. lia.
Qed.

Lemma Add_timestampMap (cbf cbf' : CountingBloomFilter) (item : string) (now : Z) :
  Add cbf item now = Ok cbf' ->
  timestampMap cbf' =
    if ExpiryStrategy (options cbf) =? EXPIRY_DURATION
    then <[item := now]> (timestampMap cbf)
    else timestampMap cbf.
Proof.
  unfold Add. destruct (Add_loop _ _ _ _ _); simpl; [|discriminate].
  intros [= <-]. reflexivity.
Qed.

(** ** Add followed by Check, as long as no counter reaches the top *)

Lemma grows_bound (n B : Z) (bm bm' : list Z) :
  grows n bm bm' -> Forall (fun c => 0 <= c <= B) bm ->
  Forall (fun c => 0 <= c <= B + n) bm'.
Proof.
  intros [Hlen Hg] Hall. apply Forall_lookup. intros j c' Hj.
  destruct (lookup_lt_is_Some_2 bm j) as [c Hc].
  { rewrite <- Hlen. eapply lookup_lt_Some; eassumption. }
  destruct (Hg j c Hc) as (c'' & Hc'' & Hb).
  pose proof (proj1 (Forall_lookup _ _) Hall j c Hc) as Hr. simpl in Hr.
  assert (c'' = c') by congruence. subst. lia.
Qed.

Lemma positive_at_grows (k : string) (sz n : Z) (bm bm' : list Z) :
  grows n bm bm' -> positive_at k sz bm -> positive_at k sz bm'.
Proof.
  intros [_ Hg] Hpos trial Ht. destruct (Hpos trial Ht) as (p & c & Hi & Hc & H1).
  destruct (Hg _ _ Hc) as (c' & Hc' & Hb). exists p, c'. repeat split; auto; lia.
Qed.

Lemma Add_loop_grows (item : string) (sz : Z) (n : nat) :
  0 < sz < two64 ->
  forall (i : Z) (bm : list Z) (B : Z),
    length bm = Z.to_nat sz ->
    Forall (fun c => 0 <= c <= B) bm ->
    B + Z.of_nat n <= 255 ->
    exists bm', Add_loop n i item sz bm = Ok bm' /\
      grows (Z.of_nat n) bm bm' /\
      (forall t, i <= t < i + Z.of_nat n ->
         exists p c', index item t sz = Ok p /\
                      bm' !! Z.to_nat p = Some c' /\ 1 <= c').
Proof.
  intros Hsz. induction n as [|n IH]; intros i bm B Hlen Hall HB.
  - exists bm. split; [reflexivity|]. split.
    + split; [reflexivity|]. intros j c Hc. exists c. split; [assumption|lia].
    + intros t Ht. lia.
  - cbn [Add_loop].
    destruct (index_in_slice item sz Hsz i bm Hlen) as (p & Hip & Hp). rewrite Hip. simpl.
    destruct (lookup_lt_is_Some_2 bm (Z.to_nat p)) as [c Hc]; [lia|].
    rewrite (proj2 (bitmap_get_Ok bm p c)) by (split; [lia|assumption]). simpl.
    rewrite bitmap_set_in_range by assumption. simpl.
    pose proof (proj1 (Forall_lookup _ _) Hall _ _ Hc) as Hr. simpl in Hr.
    rewrite uint8_incr_below_top by lia.
    destruct (IH (i + 1) (<[Z.to_nat p := c + 1]> bm) (B + 1))
      as (bm' & Hrun & [Hl' Hg] & Hpos).
    { now rewrite length_insert. }
    { apply Forall_insert; [|lia].
      eapply Forall_impl; [exact Hall|]. simpl. intros; lia. }
    { lia. }
    exists bm'. split; [exact Hrun|]. rewrite length_insert in Hl'. split; [split|].
    + assumption.
    + intros j c0 Hj. destruct (decide (j = Z.to_nat p)) as [->|Hne].
      * assert (c0 = c) by congruence. subst c0.
        destruct (Hg (Z.to_nat p) (c + 1)) as (c' & Hc' & Hb).
        { apply list_lookup_insert_eq. lia. }
        exists c'. split; [assumption|lia].
      * destruct (Hg j c0) as (c' & Hc' & Hb).
        { rewrite list_lookup_insert_ne by congruence. assumption. }
        exists c'. split; [assumption|lia].
    + intros t Ht. destruct (Z.eq_dec t i) as [->|Hne].
      * destruct (Hg (Z.to_nat p) (c + 1)) as (c' & Hc' & Hb).
        { apply list_lookup_insert_eq. lia. }
        exists p, c'. repeat split; auto; lia.
      * apply Hpos. lia.
Qed.

Lemma Add_grows (cbf : CountingBloomFilter) (item : string) (now B : Z) :
  shaped cbf ->
  Forall (fun c => 0 <= c <= B) (bitmap cbf) ->
  B + K <= 255 ->
  exists cbf', Add cbf item now = Ok cbf' /\ evolves cbf cbf' /\
    grows K (bitmap cbf) (bitmap cbf') /\
    positive_at item (size cbf') (bitmap cbf').
Proof.
  intros Hsh Hall HB. pose proof Hsh as (Hs & Hl & _).
  destruct (Add_loop_grows item (size cbf) (Z.to_nat K) Hs 0 (bitmap cbf) B Hl Hall)
    as (bm & Hrun & Hg & Hpos).
  { unfold K in *. simpl. lia. }
  destruct (Add_ok cbf item now Hsh) as (cbf' & Hadd & He).
  exists cbf'. split; [assumption|]. split; [assumption|].
  assert (Hbm : bitmap cbf' = bm).
  { unfold Add in Hadd. rewrite Hrun in Hadd. simpl in Hadd. now injection Hadd as <-. }
  assert (Hsz' : size cbf' = size cbf) by apply He.
  rewrite Hbm, Hsz'. split; [exact Hg|].
  intros trial Ht. apply Hpos. unfold K in *. simpl. lia.
Qed.

Lemma Check_loop_positive (item : string) (sz : Z) (bm : list Z) (n : nat) :
  forall i : Z,
    (forall t, i <= t < i + Z.of_nat n ->
       exists p c, index item t sz = Ok p /\ bm !! Z.to_nat p = Some c /\ 1 <= c) ->
    Check_loop n i item sz bm = Ok true.
Proof.
  induction n as [|n IH]; intros i Hpos; [reflexivity|]. cbn [Check_loop].
  destruct (Hpos i) as (p & c & Hi & Hc & H1); [lia|]. rewrite Hi. simpl.
  rewrite (proj2 (bitmap_get_Ok bm p c))
    by (split; [eapply index_Ok_nonneg; eassumption|assumption]).
  simpl. destruct (Z.eqb_spec c 0); [lia|]. apply IH. intros t Ht. apply Hpos. lia.
Qed.

Lemma Check_positive (cbf : CountingBloomFilter) (k : string) (now : Z) :
  positive_at k (size cbf) (bitmap cbf) ->
  (ExpiryStrategy (options cbf) = EXPIRY_DURATION ->
   forall t, timestampMap cbf !! k = Some t -> Since now t <= Duration (options cbf)) ->
  Check cbf k now = Ok (true, cbf).
Proof.
  intros Hpos Hfresh. unfold Check, Check_rlocked.
  rewrite (Check_loop_positive k (size cbf) (bitmap cbf) (Z.to_nat K) 0).
  2:{ intros t Ht. apply Hpos. unfold K in *. simpl in Ht. lia. }
  simpl. destruct (Z.eqb_spec (ExpiryStrategy (options cbf)) EXPIRY_DURATION) as [He|_];
    [|reflexivity].
  destruct (timestampMap cbf !! k) as [t|] eqn:Ht; [|reflexivity].
  specialize (Hfresh He t eq_refl).
  destruct (Z.ltb_spec (Duration (options cbf)) (Since now t)); [lia|reflexivity].
Qed.

(** X19: On a filter whose counters are low enough for the Adds that follow not
    to reach 255, a key that is added is found by Check afterwards, unless
    its entry of the timestamp index has expired. *)
Lemma Adds_then_Check_below_top (adds : list (string * Z)) (k : string) (now : Z) :
  forall (cbf : CountingBloomFilter) (B : Z),
    shaped cbf ->
    Forall (fun c => 0 <= c <= B) (bitmap cbf) ->
    B + K * Z.of_nat (length adds) <= 255 ->
    k ∈ adds.*1 \/ positive_at k (size cbf) (bitmap cbf) ->
    exists cbf', run (OpAdds adds) cbf = Ok cbf' /\
      ((ExpiryStrategy (options cbf') = EXPIRY_DURATION ->
        forall t, timestampMap cbf' !! k = Some t ->
                  Since now t <= Duration (options cbf')) ->
       Check cbf' k now = Ok (true, cbf')).
Proof.
  induction adds as [|[k' t'] rest IH]; intros cbf B Hsh Hall HB Hk.
  - destruct Hk as [Hin|Hpos]; [now apply elem_of_nil in Hin|].
    exists cbf. split; [reflexivity|]. now apply Check_positive.
  - simpl in HB. cbn [OpAdds map run exec fst snd].
    destruct (Add_grows cbf k' t' B Hsh Hall) as (cbf1 & -> & He & Hg & Hpos1);
      [unfold K in *; lia|].
    simpl. destruct (IH cbf1 (B + K)) as (cbf' & Hrun & Hcheck).
    + eapply evolves_shaped; eassumption.
    + eapply grows_bound; eassumption.
    + unfold K in *. lia.
    + assert (Hsz : size cbf1 = size cbf) by apply He.
      destruct Hk as [Hin|Hpos].
      * simpl in Hin. apply elem_of_cons in Hin as [->|Hin]; [right; assumption|].
        left; assumption.
      * right. rewrite Hsz. eapply positive_at_grows; eassumption.
    + exists cbf'. split; assumption.
Qed.

Lemma Adds_then_Check_below_top_witness :
  exists cbf',
    run (OpAdds [("item1", 1); ("item2", 2); ("item1", 3)]%string)
        (mkCBF (replicate 64 0) 64 (mkOptions EXPIRY_DURATION 50) 0 ∅) = Ok cbf' /\
    ((ExpiryStrategy (options cbf') = EXPIRY_DURATION ->
      forall t, timestampMap cbf' !! "item1"%string = Some t ->
                Since 9 t <= Duration (options cbf')) ->
     Check cbf' "item1"%string 9 = Ok (true, cbf')).
Proof.
  apply (Adds_then_Check_below_top
           [("item1", 1); ("item2", 2); ("item1", 3)]%string "item1"%string 9
           (mkCBF (replicate 64 0) 64 (mkOptions EXPIRY_DURATION 50) 0 ∅) 0).
  - unfold shaped, two64. simpl. lia.
  - apply Forall_replicate. lia.
  - unfold K. simpl. lia.
  - left. apply elem_of_cons. now left.
Defined.

(** ** Properties stated by the specification *)

Local Open Scope string_scope.

(** C8: for every key, every trial and every size > 0 (of an [int], so below
    2^64), the position computed by the code is the 64-bit FNV-1a hash of the
    key's bytes plus the trial, in wrapping 64-bit arithmetic, reduced modulo
    the size; it is a function of (key, trial, size) alone and lies in
    [0, size). *)
Theorem index_is_fnv1a_plus_trial_mod_size (key : string) (trial sz : Z) :
  0 < sz < two64 ->
  index key trial sz = Ok (spec_index key trial sz) /\
  0 <= spec_index key trial sz < sz.
Proof.
  intros Hsz. destruct (index_positive_size key trial sz Hsz) as [Hi Hr].
  unfold spec_index. rewrite <- hash_spec. auto.
Qed.

Lemma index_is_fnv1a_plus_trial_mod_size_witness :
  index "item1" 11 1048576 = Ok (spec_index "item1" 11 1048576) /\
  0 <= spec_index "item1" 11 1048576 < 1048576.
Proof.
  apply (index_is_fnv1a_plus_trial_mod_size "item1" 11 1048576).
  unfold two64. lia.
Defined.

(** C10: when the policy is not EXPIRY_DURATION, Check changes nothing: the
    filter after the call (counters, timestamp index, cursor) is the filter
    before it, the answer does not depend on the clock, and on a filter of
    positive size the call returns. *)
Theorem Check_frame_without_expiry (cbf : CountingBloomFilter) (item : string) (now : Z) :
  ExpiryStrategy (options cbf) <> EXPIRY_DURATION ->
  (forall now', Check cbf item now' = Check cbf item now) /\
  (forall b cbf', Check cbf item now = Ok (b, cbf') -> cbf' = cbf) /\
  (shaped cbf -> exists b, Check cbf item now = Ok (b, cbf)).
Proof.
  intros Hne.
  assert (Hr : forall t, Check cbf item t =
            do b <- Check_loop (Z.to_nat K) 0 item (size cbf) (bitmap cbf); Ok (b, cbf)).
  { intros t. unfold Check, Check_rlocked.
    destruct (Check_loop _ _ _ _ _) as [b|p]; simpl; [|reflexivity].
    destruct b; [|reflexivity].
    destruct (Z.eqb_spec (ExpiryStrategy (options cbf)) EXPIRY_DURATION);
      [contradiction|reflexivity]. }
  split; [|split].
  - intros now'. now rewrite !Hr.
  - intros b cbf'. rewrite Hr.
    destruct (Check_loop _ _ _ _ _); simpl; [|discriminate]. now intros [= _ <-].
  - intros (Hs & Hl & _). rewrite Hr.
    destruct (Check_loop_ok item (size cbf) Hs (Z.to_nat K) 0 (bitmap cbf) Hl) as [b ->].
    exists b. reflexivity.
Qed.

Lemma Check_frame_without_expiry_witness :
  (forall now', Check sample_lazy_filter "item1" now' = Check sample_lazy_filter "item1" 100) /\
  (forall b cbf', Check sample_lazy_filter "item1" 100 = Ok (b, cbf') ->
     cbf' = sample_lazy_filter) /\
  (shaped sample_lazy_filter ->
   exists b, Check sample_lazy_filter "item1" 100 = Ok (b, sample_lazy_filter)).
Proof.
  apply (Check_frame_without_expiry sample_lazy_filter "item1" 100).
  simpl. unfold LAZY_EXPIRATION, EXPIRY_DURATION. lia.
Defined.

(** C9: under every policy other than EXPIRY_DURATION the timestamp index of
    a filter of positive size is empty after any sequence of Add, Check,
    Remove and RemoveAll (and of sweep ticks), and an Add on the filter
    reached leaves the index as it is. *)
Theorem timestampMap_empty_without_expiry
  (sz : Z) (opts : option Options) (ops : list op) :
  0 < sz < two64 ->
  (forall o, opts = Some o -> ExpiryStrategy o <> EXPIRY_DURATION) ->
  exists cbf0 cbf,
    newCountingBloomFilter sz opts = Ok cbf0 /\
    run ops cbf0 = Ok cbf /\
    timestampMap cbf = ∅ /\
    forall item now, exists cbf',
      Add cbf item now = Ok cbf' /\ timestampMap cbf' = timestampMap cbf.
Proof.
  intros Hsz Hpol.
  destruct (newCountingBloomFilter_ok sz opts Hsz)
    as (cbf0 & Hnew & [Hsh _] & _ & _ & Hts & Hopts).
  assert (Hne : ExpiryStrategy (options cbf0) <> EXPIRY_DURATION).
  { rewrite Hopts. destruct opts as [o|]; [now apply Hpol|discriminate]. }
  destruct (run_ok ops cbf0 Hsh) as (cbf & Hrun & He & _).
  exists cbf0, cbf. split; [assumption|]. split; [assumption|].
  pose proof He as (_ & Ho & _ & _ & _ & Hkeep).
  split; [now apply Hkeep|].
  intros item now.
  destruct (Add_ok cbf item now (evolves_shaped _ _ Hsh He)) as (cbf' & Hadd & _).
  exists cbf'. split; [assumption|].
  rewrite (Add_timestampMap _ _ _ _ Hadd), Ho.
  destruct (Z.eqb_spec (ExpiryStrategy (options cbf0)) EXPIRY_DURATION);
    [contradiction|reflexivity].
Qed.

Lemma timestampMap_empty_without_expiry_witness :
  exists cbf0 cbf,
    newCountingBloomFilter 64 (Some (mkOptions LAZY_EXPIRATION 5)) = Ok cbf0 /\
    run [OpAdd "a" 1; OpCheck "a" 2; OpRemove "b"; OpAdd "c" 3; OpRemoveAll; OpAdd "a" 4]
        cbf0 = Ok cbf /\
    timestampMap cbf = ∅ /\
    forall item now, exists cbf',
      Add cbf item now = Ok cbf' /\ timestampMap cbf' = timestampMap cbf.
Proof.
  apply (timestampMap_empty_without_expiry 64 (Some (mkOptions LAZY_EXPIRATION 5))).
  - unfold two64. lia.
  - intros o [= <-]. simpl. unfold LAZY_EXPIRATION, EXPIRY_DURATION. lia.
Defined.

(** C4: after RemoveAll every counter is 0 and the timestamp index is empty,
    and from then on, whatever is run that is not an Add, Check answers
    false for every key. *)
Theorem RemoveAll_clears (cbf : CountingBloomFilter) (ops : list op) :
  shaped cbf ->
  forallb (fun o => negb (is_add o)) ops = true ->
  exists cbf1 cbf2,
    RemoveAll cbf = Ok cbf1 /\
    Forall (fun c => c = 0) (bitmap cbf1) /\
    length (bitmap cbf1) = Z.to_nat (size cbf) /\
    timestampMap cbf1 = ∅ /\
    run ops cbf1 = Ok cbf2 /\
    forall k now, Check cbf2 k now = Ok (false, cbf2).
Proof.
  intros Hsh Hquiet.
  destruct (RemoveAll_ok cbf Hsh) as (bm & Hrm & Hlen & Hz).
  set (cbf1 := mkCBF bm (size cbf) (options cbf) (currentIndex cbf) ∅) in *.
  assert (Hsh1 : shaped cbf1).
  { destruct Hsh as (Hs & Hl & Hc). unfold shaped, cbf1; simpl.
    repeat split; try lia; congruence. }
  destruct (run_ok ops cbf1 Hsh1) as (cbf2 & Hrun & He & Hd).
  specialize (Hd Hquiet). destruct Hd as [Hzero _].
  exists cbf1, cbf2. split; [assumption|]. split.
  { apply Forall_lookup. intros j c Hj. simpl in Hj.
    rewrite Hz in Hj by (eapply lookup_lt_Some; eassumption). congruence. }
  split; [simpl; destruct Hsh as (_ & Hl & _); congruence|].
  split; [reflexivity|]. split; [assumption|].
  intros k now.
  pose proof (evolves_shaped _ _ Hsh1 He) as (Hs2 & Hl2 & _).
  destruct He as (_ & _ & Hlen2 & _).
  unfold Check, Check_rlocked. change (Z.to_nat K) with 12%nat.
  rewrite (Check_loop_all_zero k (size cbf2) Hs2 11 0 (bitmap cbf2) Hl2); [reflexivity|].
  intros j Hj. apply Hzero. simpl. apply Hz. simpl in Hlen2. lia.
Qed.

Lemma RemoveAll_clears_witness :
  exists cbf1 cbf2,
    RemoveAll sample_expiry_filter = Ok cbf1 /\
    Forall (fun c => c = 0) (bitmap cbf1) /\
    length (bitmap cbf1) = Z.to_nat (size sample_expiry_filter) /\
    timestampMap cbf1 = ∅ /\
    run [OpCheck "k" 9; OpRemove "k"; OpLazyTick 1; OpExpiryTick ["k"] 20] cbf1 = Ok cbf2 /\
    forall k now, Check cbf2 k now = Ok (false, cbf2).
Proof.
  apply (RemoveAll_clears sample_expiry_filter
           [OpCheck "k" 9; OpRemove "k"; OpLazyTick 1; OpExpiryTick ["k"] 20]).
  - unfold shaped, two64; simpl. lia.
  - reflexivity.
Defined.

(** C3: in every state reached from a new filter of positive size by any
    sequence of operations and sweep ticks, every counter is >= 0 (and a
    [uint8]); the decrement of Remove and of the lazy sweep leaves a counter
    at 0 where it is; and Remove of a key whose addressed counters are all 0
    leaves the counter array unchanged. *)
Theorem counters_never_negative (sz : Z) (opts : option Options) (ops : list op) :
  0 < sz < two64 ->
  exists cbf0 cbf,
    newCountingBloomFilter sz opts = Ok cbf0 /\
    run ops cbf0 = Ok cbf /\
    Forall (fun c => 0 <= c < 256) (bitmap cbf) /\
    (forall p, 0 <= p -> bitmap cbf !! Z.to_nat p = Some 0 ->
       decrement (bitmap cbf) p = Ok (bitmap cbf)) /\
    (forall item, exists cbf',
       Remove cbf item = Ok cbf' /\
       forall j : nat, bitmap cbf !! j = Some 0 -> bitmap cbf' !! j = Some 0) /\
    (forall ceil_tenth, exists cbf',
       cleanupWithLazy ceil_tenth cbf = Ok cbf' /\
       forall j : nat, bitmap cbf !! j = Some 0 -> bitmap cbf' !! j = Some 0) /\
    (forall item,
       (forall trial, 0 <= trial < K ->
          exists p, index item trial (size cbf) = Ok p /\
                    bitmap cbf !! Z.to_nat p = Some 0) ->
       exists cbf', Remove cbf item = Ok cbf' /\ bitmap cbf' = bitmap cbf).
Proof.
  intros Hsz.
  destruct (newCountingBloomFilter_ok sz opts Hsz) as (cbf0 & Hnew & Hwf0 & _).
  destruct (run_ok ops cbf0 (proj1 Hwf0)) as (cbf & Hrun & He & _).
  destruct (evolves_wf _ _ Hwf0 He) as [Hsh Hrange].
  exists cbf0, cbf. split; [assumption|]. split; [assumption|].
  split; [exact Hrange|]. split; [apply decrement_at_zero|]. split; [|split].
  - intros item. destruct (Remove_ok cbf item Hsh) as (cbf' & Hr & _ & Hd & _). eauto.
  - intros ct. destruct (cleanupWithLazy_ok ct cbf Hsh) as (cbf' & Hr & _ & Hd & _). eauto.
  - intros item Hzero. unfold Remove.
    rewrite (Remove_loop_zero item (size cbf) (Z.to_nat K) 0 (bitmap cbf)).
    + simpl. eexists; split; reflexivity.
    + intros t Ht. apply Hzero. unfold K in *. simpl in Ht. lia.
Qed.

Lemma counters_never_negative_witness :
  exists cbf0 cbf,
    newCountingBloomFilter 64 None = Ok cbf0 /\
    run [OpAdd "a" 1; OpRemove "a"; OpRemove "a"; OpLazyTick 7; OpRemove "b"] cbf0
      = Ok cbf /\
    Forall (fun c => 0 <= c < 256) (bitmap cbf) /\
    (forall p, 0 <= p -> bitmap cbf !! Z.to_nat p = Some 0 ->
       decrement (bitmap cbf) p = Ok (bitmap cbf)) /\
    (forall item, exists cbf',
       Remove cbf item = Ok cbf' /\
       forall j : nat, bitmap cbf !! j = Some 0 -> bitmap cbf' !! j = Some 0) /\
    (forall ceil_tenth, exists cbf',
       cleanupWithLazy ceil_tenth cbf = Ok cbf' /\
       forall j : nat, bitmap cbf !! j = Some 0 -> bitmap cbf' !! j = Some 0) /\
    (forall item,
       (forall trial, 0 <= trial < K ->
          exists p, index item trial (size cbf) = Ok p /\
                    bitmap cbf !! Z.to_nat p = Some 0) ->
       exists cbf', Remove cbf item = Ok cbf' /\ bitmap cbf' = bitmap cbf).
Proof.
  apply (counters_never_negative 64 None). unfold two64. lia.
Defined.

(** C7, as the code has it: a negative size makes the allocation of the
    slice panic, so construction fails; size 0 is not guarded: the
    constructors return a filter with no counters, on which every Add, Check
    and Remove panics with a division by zero at the first position. *)
Theorem construction_with_nonpositive_size (sz : Z) :
  sz <= 0 ->
  (sz < 0 ->
     (forall opts, newCountingBloomFilter sz opts = Panic MakesliceLen) /\
     (forall os, NewCountingBloomFilter sz os = Panic MakesliceLen)) /\
  (sz = 0 ->
     (forall opts, exists cbf,
        newCountingBloomFilter sz opts = Ok cbf /\ bitmap cbf = [] /\ panics_on_use cbf) /\
     (forall os, exists cbf,
        NewCountingBloomFilter sz os = Ok cbf /\ bitmap cbf = [] /\ panics_on_use cbf)).
Proof.
  intros Hle. split.
  - intros Hneg.
    assert (H : forall opts, newCountingBloomFilter sz opts = Panic MakesliceLen).
    { intros opts. unfold newCountingBloomFilter, make_uint8.
      destruct (Z.ltb_spec sz 0); [reflexivity|lia]. }
    split; [exact H|]. intros os. unfold NewCountingBloomFilter. apply H.
  - intros ->.
    assert (H : forall opts, exists cbf,
               newCountingBloomFilter 0 opts = Ok cbf /\ bitmap cbf = [] /\
               panics_on_use cbf).
    { intros opts. unfold newCountingBloomFilter. simpl.
      eexists; split; [reflexivity|]. split; [reflexivity|].
      intros item now. unfold Add, Check, Check_rlocked, Remove. simpl.
      auto. }
    split; [exact H|]. intros os. unfold NewCountingBloomFilter. apply H.
Qed.

Lemma construction_with_nonpositive_size_witness :
  (0 < 0 ->
     (forall opts, newCountingBloomFilter 0 opts = Panic MakesliceLen) /\
     (forall os, NewCountingBloomFilter 0 os = Panic MakesliceLen)) /\
  (0 = 0 ->
     (forall opts, exists cbf,
        newCountingBloomFilter 0 opts = Ok cbf /\ bitmap cbf = [] /\ panics_on_use cbf) /\
     (forall os, exists cbf,
        NewCountingBloomFilter 0 os = Ok cbf /\ bitmap cbf = [] /\ panics_on_use cbf)).
Proof. apply (construction_with_nonpositive_size 0). lia. Defined.

(** C7 as stated fails at size 0: the constructor returns a filter, and the
    first Add on it divides by zero. *)
Lemma size_zero_is_not_guarded :
  exists cbf,
    NewCountingBloomFilter 0 [] = Ok cbf /\
    Add cbf "item1" 0 = Panic DivideByZero /\
    Check cbf "item1" 0 = Panic DivideByZero /\
    Remove cbf "item1" = Panic DivideByZero.
Proof. eexists. repeat split; reflexivity. Qed.

(** ** Where the code departs from the specification *)

(** C2 at a counter that holds 255: on a new filter of 64 counters, after
    255 calls of Add("item1") the counter at the first position of the key
    holds 255, and one more Add leaves it at 0, not at 255. *)
Theorem Add_wraps_counter_at_255 :
  exists cbf0 cbf cbf' p,
    NewCountingBloomFilter 64 [] = Ok cbf0 /\
    run (repeat (OpAdd "item1" 0) 255) cbf0 = Ok cbf /\
    index "item1" 0 (size cbf) = Ok p /\
    bitmap cbf !! Z.to_nat p = Some 255 /\
    Add cbf "item1" 0 = Ok cbf' /\
    bitmap cbf' !! Z.to_nat p = Some 0.
Proof.
  eexists _, _, _, _.
  by_evaluation.
Qed.

(** C1 after 256 calls of Add on one key: on a new filter of 64 counters
    with no expiry, with only Add called, Check("item1") answers false
    right after the 256th Add("item1"). *)
Theorem Check_false_after_256_Adds :
  exists cbf0 cbf255 cbf,
    NewCountingBloomFilter 64 [] = Ok cbf0 /\
    run (repeat (OpAdd "item1" 0) 255) cbf0 = Ok cbf255 /\
    Check cbf255 "item1" 0 = Ok (true, cbf255) /\
    Add cbf255 "item1" 0 = Ok cbf /\
    Check cbf "item1" 0 = Ok (false, cbf).
Proof.
  eexists _, _, _.
  by_evaluation.
Qed.

(** X20: The sweep goroutine runs one pass for each tick it receives, whatever
    the passes evict. *)
Lemma sweep_run_passes (order : CountingBloomFilter -> list string) (fuel : nat) :
  forall w w', sweep_run fuel order w = Ok w' ->
    (passes w' + length (ticks w') = passes w + length (ticks w))%nat.
Proof.
  induction fuel as [|fuel IH]; intros w w'; simpl.
  - now intros [= <-].
  - unfold sweep_step. destruct (pc w) as [|e].
    + destruct (ticks w) as [|now later] eqn:Ht; [now intros [= <-]; rewrite Ht|].
      destruct (Expiry_pass _ _ _) as [r|]; simpl; [|discriminate].
      intros H. apply IH in H. simpl in H. lia.
    + destruct (over_quarter e); simpl; intros H; apply IH in H; simpl in H; lia.
Qed.

Lemma sweep_run_passes_witness :
  Nat.add
    (passes (mkSweeper AtSelect [] 1
               (mkCBF [1; 0; 38; 0; 0; 0] 6 (mkOptions EXPIRY_DURATION 5) 2 ∅)))
    (length (ticks (mkSweeper AtSelect [] 1
               (mkCBF [1; 0; 38; 0; 0; 0] 6 (mkOptions EXPIRY_DURATION 5) 2 ∅)))) =
  Nat.add (passes (mkSweeper AtSelect [9] 0 sample_low_filter))
    (length (ticks (mkSweeper AtSelect [9] 0 sample_low_filter))).
Proof.
  apply (sweep_run_passes keys_of 5 (mkSweeper AtSelect [9] 0 sample_low_filter)).
  vm_compute. reflexivity.
Defined.

(** C5 on a map of 25 keys with one tick: the filter has period and
    duration 1000, the keys are added at instant 900 and the ticker fires at
    instant 1000, when none has expired.  The pass visits 20 keys and evicts
    all 20 of them, more than 25%; the goroutine is then back at the select,
    blocked until the next tick, with one pass run and five keys left in the
    map. *)
Theorem sweep_waits_for_the_next_tick :
  exists cbf0 cbf w1 w,
    newCountingBloomFilter 64 (Some (mkOptions EXPIRY_DURATION 1000)) = Ok cbf0 /\
    run (map (fun k => OpAdd k 900) names25) cbf0 = Ok cbf /\
    sweep_step keys_of (mkSweeper AtSelect [1000] 0 cbf) = Some (Ok w1) /\
    pc w1 = AfterPass 20 /\
    over_quarter 20 = true /\
    sweep_run 10 keys_of (mkSweeper AtSelect [1000] 0 cbf) = Ok w /\
    pc w = AtSelect /\
    ticks w = [] /\
    passes w = 1%nat /\
    length (keys_of (filter w)) = 5%nat /\
    sweep_step keys_of w = None.
Proof.
  eexists _, _, _, _. by_evaluation.
Qed.

(** Check run alone is its two critical sections run one after the other. *)
Lemma Check_as_sections (cbf : CountingBloomFilter) (item : string) (now : Z) :
  schedule [0%nat; 0%nat] cbf [Pending (CallCheck item now)] =
  do r <- Check cbf item now; Ok (snd r, [Returned (Some (fst r))]).
Proof.
  unfold Check. simpl.
  destruct (Check_rlocked cbf item now) as [[]|]; simpl; try reflexivity.
  destruct (Remove cbf item); reflexivity.
Qed.

(** C6 on an expired key: goroutine 0 calls Check("a"), goroutine 1 calls
    Add("a") at instant 100.  When the Add runs between the read-locked part
    of Check and its Remove, the timestamp written by the Add is deleted and
    its increments are undone, whereas both orders of the two calls run one
    after the other keep the timestamp 100.  With a second Check in the same
    position (goroutine 2) the counters of "a" end at 0, and Check("a")
    answers false right after the Add. *)
Theorem Check_removal_clobbers_concurrent_Add :
  exists cbf0 cbf s1 s2 s3 s4,
    newCountingBloomFilter 64 (Some (mkOptions EXPIRY_DURATION 10)) = Ok cbf0 /\
    Add cbf0 "a" 0 = Ok cbf /\
    (* Check's read part, the Add, Check's Remove *)
    schedule [0; 1; 0]%nat cbf [Pending (CallCheck "a" 100); Pending (CallAdd "a" 100)]
      = Ok (s1, [Returned (Some false); Returned None]) /\
    timestampMap s1 !! "a" = None /\
    bitmap s1 = bitmap cbf /\
    (* Check, then Add *)
    schedule [0; 0; 1]%nat cbf [Pending (CallCheck "a" 100); Pending (CallAdd "a" 100)]
      = Ok (s2, [Returned (Some false); Returned None]) /\
    timestampMap s2 !! "a" = Some 100 /\
    (* Add, then Check *)
    schedule [1; 0; 0]%nat cbf [Pending (CallCheck "a" 100); Pending (CallAdd "a" 100)]
      = Ok (s3, [Returned (Some true); Returned None]) /\
    timestampMap s3 !! "a" = Some 100 /\
    (* two Checks around the Add *)
    schedule [0; 2; 1; 0; 2]%nat cbf
      [Pending (CallCheck "a" 100); Pending (CallAdd "a" 100); Pending (CallCheck "a" 100)]
      = Ok (s4, [Returned (Some false); Returned None; Returned (Some false)]) /\
    Check s4 "a" 100 = Ok (false, s4).
Proof.
  eexists _, _, _, _, _, _.
  by_evaluation.
Qed.

(** ** Add and Remove slot by slot *)

Lemma hit_range (item : string) (sz t : Z) (j : nat) : 0 <= hit item sz t j <= 1.
Proof.
  unfold hit. destruct (index item t sz) as [p|]; [|lia].
  destruct (Z.eqb p (Z.of_nat j)); lia.
Qed.

Lemma hits_range (item : string) (sz : Z) (n : nat) :
  forall (i : Z) (j : nat), 0 <= hits item sz n i j <= Z.of_nat n.
Proof.
  induction n as [|n IH]; intros i j; simpl hits; [lia|].
  pose proof (hit_range item sz i j). pose proof (IH (i + 1) j). lia.
Qed.

Lemma hits_zero (item : string) (sz : Z) (j : nat) (n : nat) :
  forall i : Z,
    (forall t, i <= t < i + Z.of_nat n -> index item t sz <> Ok (Z.of_nat j)) ->
    hits item sz n i j = 0.
Proof.
  induction n as [|n IH]; intros i Hno; simpl hits; [reflexivity|].
  rewrite IH by (intros t Ht; apply Hno; lia).
  unfold hit. pose proof (Hno i ltac:(lia)) as Hi.
  destruct (index item i sz) as [p|]; [|reflexivity].
  destruct (Z.eqb_spec p (Z.of_nat j)); [congruence|reflexivity].
Qed.

Lemma hits_positive (item : string) (sz : Z) (j : nat) (n : nat) :
  forall i t : Z,
    i <= t < i + Z.of_nat n -> index item t sz = Ok (Z.of_nat j) ->
    1 <= hits item sz n i j.
Proof.
  induction n as [|n IH]; intros i t Ht Hi; [lia|]. simpl hits.
  pose proof (hit_range item sz i j). pose proof (hits_range item sz n (i + 1) j).
  destruct (Z.eq_dec t i) as [->|Hne].
  - unfold hit in *. rewrite Hi in *. rewrite Z.eqb_refl in *. lia.
  - pose proof (IH (i + 1) t ltac:(lia) Hi). lia.
Qed.

Lemma decrement_exact (bm : list Z) (p c : Z) :
  0 <= p -> bm !! Z.to_nat p = Some c -> 0 <= c < 256 ->
  decrement bm p = Ok (<[Z.to_nat p := floor_decr c]> bm).
Proof.
  intros Hp Hc Hr. unfold decrement, floor_decr.
  rewrite (proj2 (bitmap_get_Ok bm p c)) by auto. simpl.
  destruct (Z.ltb_spec 0 c).
  - rewrite bitmap_set_in_range
      by (split; [lia|]; apply lookup_lt_Some in Hc; lia).
    rewrite uint8_decr_positive by lia. do 2 f_equal. lia.
  - replace (Z.max 0 (c - 1)) with c by lia. now rewrite list_insert_id.
Qed.

Section Counts.
Variables (item : string) (sz : Z).
Hypothesis Hsz : 0 < sz < two64.

Lemma hit_at (i p : Z) (j : nat) :
  index item i sz = Ok p ->
  hit item sz i j = if decide (j = Z.to_nat p) then 1 else 0.
Proof.
  intros Hi. unfold hit. rewrite Hi. pose proof (index_Ok_nonneg _ _ _ _ Hi).
  destruct (Z.eqb_spec p (Z.of_nat j)); destruct (decide (j = Z.to_nat p)); lia.
Qed.

Lemma Add_loop_counts (n : nat) : forall (i : Z) (bm : list Z),
  length bm = Z.to_nat sz -> Forall uint8_range bm ->
  exists bm', Add_loop n i item sz bm = Ok bm' /\
    length bm' = length bm /\
    forall (j : nat) (c : Z), bm !! j = Some c ->
      bm' !! j = Some ((c + hits item sz n i j) mod 256).
Proof.
  induction n as [|n IH]; intros i bm Hlen Hall.
  - exists bm. split; [reflexivity|]. split; [reflexivity|].
    intros j c Hc. simpl hits. rewrite Z.add_0_r, Z.mod_small; [assumption|].
    exact (proj1 (Forall_lookup _ _) Hall _ _ Hc).
  - cbn [Add_loop].
    destruct (index_in_slice item sz Hsz i bm Hlen) as (p & Hip & Hp). rewrite Hip. simpl.
    destruct (lookup_lt_is_Some_2 bm (Z.to_nat p)) as [cp Hcp]; [lia|].
    rewrite (proj2 (bitmap_get_Ok bm p cp)) by (split; [lia|assumption]). simpl.
    rewrite bitmap_set_in_range by assumption. simpl.
    destruct (IH (i + 1) (<[Z.to_nat p := uint8_incr cp]> bm)) as (bm' & Hrun & Hl & Hpt).
    { now rewrite length_insert. }
    { apply Forall_insert; [assumption|apply uint8_incr_range]. }
    exists bm'. split; [exact Hrun|]. rewrite length_insert in Hl. split; [exact Hl|].
    intros j c Hc. simpl hits. rewrite (hit_at i p j Hip).
    destruct (decide (j = Z.to_nat p)) as [->|Hne].
    + assert (c = cp) by congruence. subst c.
      rewrite (Hpt (Z.to_nat p) (uint8_incr cp)) by (apply list_lookup_insert_eq; lia).
      unfold uint8_incr. rewrite Zplus_mod_idemp_l. do 2 f_equal. lia.
    + rewrite (Hpt j c) by (rewrite list_lookup_insert_ne by congruence; assumption).
      reflexivity.
Qed.

Lemma Remove_loop_counts (n : nat) : forall (i : Z) (bm : list Z),
  length bm = Z.to_nat sz -> Forall uint8_range bm ->
  exists bm', Remove_loop n i item sz bm = Ok bm' /\
    length bm' = length bm /\
    forall (j : nat) (c : Z), bm !! j = Some c ->
      bm' !! j = Some (Z.max 0 (c - hits item sz n i j)).
Proof.
  induction n as [|n IH]; intros i bm Hlen Hall.
  - exists bm. split; [reflexivity|]. split; [reflexivity|].
    intros j c Hc. simpl hits.
    pose proof (proj1 (Forall_lookup _ _) Hall _ _ Hc) as Hr. unfold uint8_range in Hr.
    rewrite Hc. f_equal. lia.
  - cbn [Remove_loop].
    destruct (index_in_slice item sz Hsz i bm Hlen) as (p & Hip & Hp). rewrite Hip. simpl.
    destruct (lookup_lt_is_Some_2 bm (Z.to_nat p)) as [cp Hcp]; [lia|].
    pose proof (proj1 (Forall_lookup _ _) Hall _ _ Hcp) as Hrp. unfold uint8_range in Hrp.
    rewrite (decrement_exact bm p cp) by (auto; lia). simpl.
    destruct (IH (i + 1) (<[Z.to_nat p := floor_decr cp]> bm)) as (bm' & Hrun & Hl & Hpt).
    { now rewrite length_insert. }
    { apply Forall_insert; [assumption|]. unfold uint8_range, floor_decr. lia. }
    exists bm'. split; [exact Hrun|]. rewrite length_insert in Hl. split; [exact Hl|].
    intros j c Hc. simpl hits. rewrite (hit_at i p j Hip).
    pose proof (hits_range item sz n (i + 1) j) as Hh.
    destruct (decide (j = Z.to_nat p)) as [->|Hne].
    + assert (c = cp) by congruence. subst c.
      rewrite (Hpt (Z.to_nat p) (floor_decr cp)) by (apply list_lookup_insert_eq; lia).
      f_equal. unfold floor_decr. lia.
    + rewrite (Hpt j c) by (rewrite list_lookup_insert_ne by congruence; assumption).
      f_equal.
Qed.
End Counts.

Lemma Add_exact (cbf : CountingBloomFilter) (item : string) (now : Z) :
  wf cbf ->
  exists bm,
    Add cbf item now =
      Ok (mkCBF bm (size cbf) (options cbf) (currentIndex cbf)
            (if (ExpiryStrategy (options cbf) =? EXPIRY_DURATION)%Z
             then <[item := now]> (timestampMap cbf)
             else timestampMap cbf)) /\
    length bm = length (bitmap cbf) /\
    Forall uint8_range bm /\
    forall (j : nat) (c : Z), bitmap cbf !! j = Some c ->
      bm !! j = Some ((c + hits_of item (size cbf) j) mod 256).
Proof.
  intros [(Hs & Hl & Hc) Hr]. unfold Add.
  destruct (Add_loop_counts item (size cbf) Hs (Z.to_nat K) 0 (bitmap cbf) Hl Hr)
    as (bm & -> & Hlen & Hpt).
  exists bm. split; [reflexivity|]. split; [exact Hlen|]. split; [|exact Hpt].
  apply Forall_lookup. intros j x Hx.
  destruct (lookup_lt_is_Some_2 (bitmap cbf) j) as [c Hcj].
  { rewrite <- Hlen. eapply lookup_lt_Some; eassumption. }
  rewrite (Hpt j c Hcj) in Hx. injection Hx as <-.
  unfold uint8_range. apply Z.mod_pos_bound. lia.
Qed.

Lemma Remove_exact (cbf : CountingBloomFilter) (item : string) :
  wf cbf ->
  exists bm,
    Remove cbf item =
      Ok (mkCBF bm (size cbf) (options cbf) (currentIndex cbf)
            (delete item (timestampMap cbf))) /\
    length bm = length (bitmap cbf) /\
    forall (j : nat) (c : Z), bitmap cbf !! j = Some c ->
      bm !! j = Some (Z.max 0 (c - hits_of item (size cbf) j)).
Proof.
  intros [(Hs & Hl & Hc) Hr]. unfold Remove.
  destruct (Remove_loop_counts item (size cbf) Hs (Z.to_nat K) 0 (bitmap cbf) Hl Hr)
    as (bm & -> & Hlen & Hpt).
  exists bm. auto.
Qed.

Lemma hits_of_range (item : string) (sz : Z) (j : nat) : 0 <= hits_of item sz j <= K.
Proof. unfold hits_of. pose proof (hits_range item sz (Z.to_nat K) 0 j). unfold K in *. lia. Qed.

(** Remove after Add, as long as the Add wrapped no counter. *)
Lemma Remove_Add_exact (cbf : CountingBloomFilter) (item : string) (now : Z) :
  wf cbf -> below_top cbf ->
  exists cbf1,
    Add cbf item now = Ok cbf1 /\ wf cbf1 /\
    size cbf1 = size cbf /\
    Remove cbf1 item =
      Ok (mkCBF (bitmap cbf) (size cbf) (options cbf) (currentIndex cbf)
            (delete item (timestampMap cbf))).
Proof.
  intros Hwf Htop. destruct (Add_exact cbf item now Hwf) as (bm1 & Hadd & Hl1 & Hr1 & Hp1).
  eexists. split; [exact Hadd|].
  assert (Hwf1 : wf (mkCBF bm1 (size cbf) (options cbf) (currentIndex cbf)
            (if (ExpiryStrategy (options cbf) =? EXPIRY_DURATION)%Z
             then <[item := now]> (timestampMap cbf)
             else timestampMap cbf))).
  { destruct Hwf as [(Hs & Hl & Hc) Hr]. unfold wf, shaped; simpl.
    repeat split; try lia; try assumption; congruence. }
  split; [exact Hwf1|]. split; [reflexivity|].
  destruct (Remove_exact _ item Hwf1) as (bm2 & -> & Hl2 & Hp2). simpl in *.
  f_equal. f_equal.
  - apply (list_eq_same_length _ _ (length (bitmap cbf))); [reflexivity|congruence|].
    intros j x y Hj Hx Hy.
    pose proof (Hp1 j y Hy) as H1. rewrite (Hp2 j _ H1) in Hx. injection Hx as <-.
    pose proof (proj1 (Forall_lookup _ _) Htop j y Hy) as Ht. simpl in Ht.
    destruct Hwf as [_ Hr]. pose proof (proj1 (Forall_lookup _ _) Hr j y Hy) as Hy'.
    unfold uint8_range in Hy'. pose proof (hits_of_range item (size cbf) j).
    rewrite Z.mod_small by lia. lia.
  - destruct (ExpiryStrategy (options cbf) =? EXPIRY_DURATION)%Z;
      [apply delete_insert_eq|reflexivity].
Qed.

(** ** Further properties of the operations *)

(** X1: Add raises the counter of every slot by the number of trials of the key
    that address it, modulo 256, writes the key's timestamp under
    EXPIRY_DURATION only, and changes nothing else. *)
Theorem Add_raises_slots_by_hits (cbf : CountingBloomFilter) (item : string) (now : Z) :
  wf cbf ->
  exists cbf',
    Add cbf item now = Ok cbf' /\
    size cbf' = size cbf /\ options cbf' = options cbf /\
    currentIndex cbf' = currentIndex cbf /\
    length (bitmap cbf') = length (bitmap cbf) /\
    (forall (j : nat) (c : Z), bitmap cbf !! j = Some c ->
       bitmap cbf' !! j = Some ((c + hits_of item (size cbf) j) mod 256)) /\
    timestampMap cbf' =
      (if (ExpiryStrategy (options cbf) =? EXPIRY_DURATION)%Z
       then <[item := now]> (timestampMap cbf)
       else timestampMap cbf).
Proof.
  intros Hwf. destruct (Add_exact cbf item now Hwf) as (bm & Hadd & Hl & _ & Hp).
  eexists. split; [exact Hadd|]. simpl. auto 10.
Qed.

Lemma Add_raises_slots_by_hits_witness :
  exists cbf',
    Add sample_lazy_filter "item1" 9 = Ok cbf' /\
    size cbf' = size sample_lazy_filter /\ options cbf' = options sample_lazy_filter /\
    currentIndex cbf' = currentIndex sample_lazy_filter /\
    length (bitmap cbf') = length (bitmap sample_lazy_filter) /\
    (forall (j : nat) (c : Z), bitmap sample_lazy_filter !! j = Some c ->
       bitmap cbf' !! j =
         Some ((c + hits_of "item1" (size sample_lazy_filter) j) mod 256)) /\
    timestampMap cbf' =
      (if (ExpiryStrategy (options sample_lazy_filter) =? EXPIRY_DURATION)%Z
       then <[ "item1" := 9 ]> (timestampMap sample_lazy_filter)
       else timestampMap sample_lazy_filter).
Proof.
  apply (Add_raises_slots_by_hits sample_lazy_filter "item1" 9).
  unfold wf, shaped, sample_lazy_filter, two64, uint8_range; simpl.
  repeat split; try lia. repeat constructor; lia.
Defined.

(** X2: Remove lowers the counter of every slot by the number of trials of the
    key that address it, stopping at 0, deletes the key's timestamp, and
    changes nothing else. *)
Theorem Remove_lowers_slots_by_hits (cbf : CountingBloomFilter) (item : string) :
  wf cbf ->
  exists cbf',
    Remove cbf item = Ok cbf' /\
    size cbf' = size cbf /\ options cbf' = options cbf /\
    currentIndex cbf' = currentIndex cbf /\
    length (bitmap cbf') = length (bitmap cbf) /\
    (forall (j : nat) (c : Z), bitmap cbf !! j = Some c ->
       bitmap cbf' !! j = Some (Z.max 0 (c - hits_of item (size cbf) j))) /\
    timestampMap cbf' = delete item (timestampMap cbf).
Proof.
  intros Hwf. destruct (Remove_exact cbf item Hwf) as (bm & Hrm & Hl & Hp).
  eexists. split; [exact Hrm|]. simpl. auto 10.
Qed.

Lemma Remove_lowers_slots_by_hits_witness :
  exists cbf',
    Remove sample_expiry_filter "k" = Ok cbf' /\
    size cbf' = size sample_expiry_filter /\ options cbf' = options sample_expiry_filter /\
    currentIndex cbf' = currentIndex sample_expiry_filter /\
    length (bitmap cbf') = length (bitmap sample_expiry_filter) /\
    (forall (j : nat) (c : Z), bitmap sample_expiry_filter !! j = Some c ->
       bitmap cbf' !! j = Some (Z.max 0 (c - hits_of "k" (size sample_expiry_filter) j))) /\
    timestampMap cbf' = delete "k" (timestampMap sample_expiry_filter).
Proof.
  apply (Remove_lowers_slots_by_hits sample_expiry_filter "k").
  unfold wf, shaped, sample_expiry_filter, two64, uint8_range; simpl.
  repeat split; try lia. repeat constructor; lia.
Defined.

(** X3: Add and Remove leave alone every slot that no trial of the key
    addresses. *)
Theorem Add_Remove_leave_other_slots
  (cbf : CountingBloomFilter) (item : string) (now : Z) (j : nat) :
  wf cbf ->
  (forall t, 0 <= t < K -> index item t (size cbf) <> Ok (Z.of_nat j)) ->
  exists a r,
    Add cbf item now = Ok a /\ Remove cbf item = Ok r /\
    bitmap a !! j = bitmap cbf !! j /\ bitmap r !! j = bitmap cbf !! j.
Proof.
  intros Hwf Hno.
  assert (Hz : hits_of item (size cbf) j = 0).
  { apply hits_zero. intros t Ht. apply Hno. unfold K in *. simpl in Ht. lia. }
  destruct (Add_exact cbf item now Hwf) as (bma & Hadd & Hla & _ & Hpa).
  destruct (Remove_exact cbf item Hwf) as (bmr & Hrm & Hlr & Hpr).
  eexists _, _. split; [exact Hadd|]. split; [exact Hrm|]. simpl.
  destruct (bitmap cbf !! j) as [c|] eqn:Hc.
  - destruct Hwf as [_ Hr]. pose proof (proj1 (Forall_lookup _ _) Hr j c Hc) as Hc'.
    unfold uint8_range in Hc'.
    rewrite (Hpa j c Hc), (Hpr j c Hc), Hz, Z.add_0_r, Z.sub_0_r.
    rewrite Z.mod_small by lia. split; f_equal; lia.
  - apply lookup_ge_None in Hc. split; apply lookup_ge_None; lia.
Qed.

Lemma Add_Remove_leave_other_slots_witness :
  exists a r,
    Add (mkCBF (replicate 64 7) 64 (mkOptions NO_EXPIRATION 5) 0 ∅) "item1" 3 = Ok a /\
    Remove (mkCBF (replicate 64 7) 64 (mkOptions NO_EXPIRATION 5) 0 ∅) "item1" = Ok r /\
    bitmap a !! 20%nat = replicate 64 7 !! 20%nat /\
    bitmap r !! 20%nat = replicate 64 7 !! 20%nat.
Proof.
  apply (Add_Remove_leave_other_slots
           (mkCBF (replicate 64 7) 64 (mkOptions NO_EXPIRATION 5) 0 ∅) "item1" 3 20).
  - unfold wf, shaped, two64, uint8_range; simpl.
    repeat split; try lia. repeat constructor; lia.
  - intros t Ht. unfold K in Ht.
    assert (Hcases : t = 0 \/ t = 1 \/ t = 2 \/ t = 3 \/ t = 4 \/ t = 5 \/ t = 6 \/
                     t = 7 \/ t = 8 \/ t = 9 \/ t = 10 \/ t = 11) by lia.
    destruct Hcases as [->|[->|[->|[->|[->|[->|[->|[->|[->|[->|[->| ->]]]]]]]]]]];
      vm_compute; discriminate.
Defined.

(** X4: Remove undoes Add: on a filter whose counters all leave room for the K
    increments, Add followed by Remove of the same key gives back the
    counters, the cursor and the options, and a timestamp index without the
    key. *)
Theorem Remove_after_Add_restores (cbf : CountingBloomFilter) (item : string) (now : Z) :
  wf cbf -> below_top cbf ->
  exists cbf1,
    Add cbf item now = Ok cbf1 /\
    Remove cbf1 item =
      Ok (mkCBF (bitmap cbf) (size cbf) (options cbf) (currentIndex cbf)
            (delete item (timestampMap cbf))).
Proof.
  intros Hwf Htop.
  destruct (Remove_Add_exact cbf item now Hwf Htop) as (cbf1 & Hadd & _ & _ & Hrm).
  exists cbf1. auto.
Qed.

Lemma Remove_after_Add_restores_witness :
  exists cbf1,
    Add sample_lazy_filter "item1" 9 = Ok cbf1 /\
    Remove cbf1 "item1" =
      Ok (mkCBF (bitmap sample_lazy_filter) (size sample_lazy_filter)
            (options sample_lazy_filter) (currentIndex sample_lazy_filter)
            (delete "item1" (timestampMap sample_lazy_filter))).
Proof.
  apply (Remove_after_Add_restores sample_lazy_filter "item1" 9).
  - unfold wf, shaped, sample_lazy_filter, two64, uint8_range; simpl.
    repeat split; try lia. repeat constructor; lia.
  - unfold below_top, sample_lazy_filter, K; simpl. repeat constructor; lia.
Defined.

(** X5: Two Adds give the same counters in either order, also when counters
    wrap. *)
Theorem Add_commutes_on_counters
  (cbf : CountingBloomFilter) (k1 k2 : string) (t1 t2 : Z) :
  wf cbf ->
  exists a ab b ba,
    Add cbf k1 t1 = Ok a /\ Add a k2 t2 = Ok ab /\
    Add cbf k2 t2 = Ok b /\ Add b k1 t1 = Ok ba /\
    bitmap ab = bitmap ba.
Proof.
  intros Hwf.
  assert (Hnext : forall bm m,
            length bm = length (bitmap cbf) -> Forall uint8_range bm ->
            wf (mkCBF bm (size cbf) (options cbf) (currentIndex cbf) m)).
  { intros bm m Hl Hr. destruct Hwf as [(Hs & Hl0 & Hc) _].
    unfold wf, shaped; simpl. repeat split; try lia; try assumption; congruence. }
  destruct (Add_exact cbf k1 t1 Hwf) as (bma & Ha & Hla & Hra & Hpa).
  destruct (Add_exact cbf k2 t2 Hwf) as (bmb & Hb & Hlb & Hrb & Hpb).
  match type of Ha with _ = Ok ?a =>
    destruct (Add_exact a k2 t2 (Hnext bma _ Hla Hra)) as (bmab & Hab & Hlab & _ & Hpab)
  end.
  match type of Hb with _ = Ok ?b =>
    destruct (Add_exact b k1 t1 (Hnext bmb _ Hlb Hrb)) as (bmba & Hba & Hlba & _ & Hpba)
  end.
  eexists _, _, _, _. split; [exact Ha|]. split; [exact Hab|].
  split; [exact Hb|]. split; [exact Hba|]. simpl in *.
  apply (list_eq_same_length _ _ (length (bitmap cbf))); [congruence|congruence|].
  intros j x y Hj Hx Hy.
  destruct (lookup_lt_is_Some_2 (bitmap cbf) j Hj) as [c Hc].
  rewrite (Hpab j _ (Hpa j c Hc)) in Hx. rewrite (Hpba j _ (Hpb j c Hc)) in Hy.
  injection Hx as <-. injection Hy as <-.
  rewrite !Zplus_mod_idemp_l. f_equal. lia.
Qed.

Lemma Add_commutes_on_counters_witness :
  exists a ab b ba,
    Add sample_expiry_filter "item1" 5 = Ok a /\ Add a "item2" 6 = Ok ab /\
    Add sample_expiry_filter "item2" 6 = Ok b /\ Add b "item1" 5 = Ok ba /\
    bitmap ab = bitmap ba.
Proof.
  apply (Add_commutes_on_counters sample_expiry_filter "item1" "item2" 5 6).
  unfold wf, shaped, sample_expiry_filter, two64, uint8_range; simpl.
  repeat split; try lia. repeat constructor; lia.
Defined.

(** X6: On a new filter, Add followed by Remove of the same key gives back the
    new filter, whatever the policy, and Check then answers false. *)
Theorem Add_then_Remove_on_new_filter
  (sz : Z) (opts : option Options) (item : string) (t now : Z) :
  0 < sz < two64 ->
  exists cbf0 cbf1,
    newCountingBloomFilter sz opts = Ok cbf0 /\
    Add cbf0 item t = Ok cbf1 /\
    Remove cbf1 item = Ok cbf0 /\
    Check cbf0 item now = Ok (false, cbf0).
Proof.
  intros Hsz.
  destruct (newCountingBloomFilter_ok sz opts Hsz)
    as (cbf0 & Hnew & Hwf & Hsize & Hbm & Hts & _).
  assert (Htop : below_top cbf0).
  { unfold below_top. rewrite Hbm. apply Forall_replicate. unfold K. lia. }
  destruct (Remove_Add_exact cbf0 item t Hwf Htop) as (cbf1 & Hadd & _ & _ & Hrm).
  exists cbf0, cbf1. split; [exact Hnew|]. split; [exact Hadd|]. split.
  - rewrite Hrm, Hts, delete_empty. rewrite <- Hts. now destruct cbf0.
  - destruct Hwf as [(Hs & Hl & _) _].
    unfold Check, Check_rlocked. change (Z.to_nat K) with 12%nat.
    rewrite (Check_loop_all_zero item (size cbf0) Hs 11 0 (bitmap cbf0) Hl); [reflexivity|].
    intros j Hj. rewrite Hbm in *. apply lookup_replicate_2.
    now rewrite length_replicate in Hj.
Qed.

Lemma Add_then_Remove_on_new_filter_witness :
  exists cbf0 cbf1,
    newCountingBloomFilter 1024 (Some (mkOptions EXPIRY_DURATION 50)) = Ok cbf0 /\
    Add cbf0 "item1" 7 = Ok cbf1 /\
    Remove cbf1 "item1" = Ok cbf0 /\
    Check cbf0 "item1" 8 = Ok (false, cbf0).
Proof.
  apply (Add_then_Remove_on_new_filter 1024 (Some (mkOptions EXPIRY_DURATION 50)) "item1" 7 8).
  unfold two64. lia.
Defined.

(** ** The K positions of a key *)

Lemma sum64a_Write_range (data : list Z) : forall h : Z,
  0 <= h < two64 -> 0 <= sum64a_Write h data < two64.
Proof.
  induction data as [|c rest IH]; intros h Hh; simpl; [assumption|].
  apply IH. unfold mul64. apply Z.mod_pos_bound, two64_pos.
Qed.

Lemma fnv1a64_range (data : list Z) : 0 <= fnv1a64 data < two64.
Proof. apply sum64a_Write_range. unfold offset64, two64. lia. Qed.

Lemma hash_without_wrap (key : string) (t : Z) :
  0 <= t -> fnv1a64 (bytes_of key) + t < two64 ->
  hash key t = fnv1a64 (bytes_of key) + t.
Proof.
  intros Ht Hno. pose proof (fnv1a64_range (bytes_of key)) as Hr.
  unfold hash, add64. rewrite uint64_small by lia. apply Z.mod_small. lia.
Qed.

(** X7: The positions of a key are consecutive slots, modulo the size, from the
    position of trial 0, as long as the 64-bit sum hash + trial does not
    wrap. *)
Theorem index_trials_are_consecutive (key : string) (t sz : Z) :
  0 < sz < two64 -> 0 <= t -> fnv1a64 (bytes_of key) + t < two64 ->
  exists p0, index key 0 sz = Ok p0 /\ index key t sz = Ok ((p0 + t) mod sz).
Proof.
  intros Hsz Ht Hno.
  destruct (index_positive_size key 0 sz Hsz) as [H0 _].
  destruct (index_positive_size key t sz Hsz) as [Hi _].
  exists (hash key 0 mod sz). split; [exact H0|]. rewrite Hi. f_equal.
  rewrite (hash_without_wrap key t Ht Hno).
  rewrite (hash_without_wrap key 0) by lia.
  rewrite Z.add_0_r. now rewrite Zplus_mod_idemp_l.
Qed.

Lemma index_trials_are_consecutive_witness :
  exists p0, index "item1" 0 1048576 = Ok p0 /\
             index "item1" 11 1048576 = Ok ((p0 + 11) mod 1048576).
Proof.
  apply (index_trials_are_consecutive "item1" 11 1048576).
  - unfold two64. lia.
  - lia.
  - vm_compute. reflexivity.
Defined.

Lemma index_distinct (key : string) (t t' sz : Z) :
  K <= sz < two64 -> fnv1a64 (bytes_of key) + K <= two64 ->
  0 <= t < t' -> t' < K ->
  index key t sz <> index key t' sz.
Proof.
  intros Hsz Hno Ht Ht'. unfold K in *.
  destruct (index_positive_size key t sz ltac:(lia)) as [-> _].
  destruct (index_positive_size key t' sz ltac:(lia)) as [-> _].
  rewrite (hash_without_wrap key t) by lia.
  rewrite (hash_without_wrap key t') by lia.
  intros [= Heq].
  assert (Hd : (t' - t) mod sz = 0).
  { replace (t' - t) with ((fnv1a64 (bytes_of key) + t') - (fnv1a64 (bytes_of key) + t))
      by lia.
    rewrite Zminus_mod, Heq, Z.sub_diag. apply Z.mod_0_l. lia. }
  rewrite Z.mod_small in Hd by lia. lia.
Qed.

(** X8: With at least K slots the K positions of a key are pairwise distinct,
    as long as hash + trial does not wrap. *)
Theorem index_trials_are_distinct (key : string) (t t' sz : Z) :
  K <= sz < two64 -> fnv1a64 (bytes_of key) + K <= two64 ->
  0 <= t < t' -> t' < K ->
  index key t sz <> index key t' sz.
Proof. apply index_distinct. Qed.

Lemma index_trials_are_distinct_witness :
  index "item1" 2 64 <> index "item1" 9 64.
Proof.
  apply (index_trials_are_distinct "item1" 2 9 64).
  - unfold K, two64. lia.
  - vm_compute. discriminate.
  - lia.
  - unfold K. lia.
Defined.

(** ** What Check answers *)

Lemma Check_loop_true (item : string) (sz : Z) (bm : list Z) (n : nat) :
  forall i : Z,
    Check_loop n i item sz bm = Ok true ->
    forall t, i <= t < i + Z.of_nat n ->
      exists p c, index item t sz = Ok p /\ bm !! Z.to_nat p = Some c /\ c <> 0.
Proof.
  induction n as [|n IH]; intros i Hrun t Ht; [lia|]. cbn [Check_loop] in Hrun.
  destruct (index item i sz) as [p|] eqn:Hi; simpl in Hrun; [|discriminate].
  destruct (bitmap_get bm p) as [c|] eqn:Hc; simpl in Hrun; [|discriminate].
  destruct (Z.eqb_spec c 0) as [|Hne]; [discriminate|].
  destruct (Z.eq_dec t i) as [->|Hti].
  - exists p, c. apply bitmap_get_Ok in Hc as [_ Hc]. auto.
  - apply (IH (i + 1) Hrun). lia.
Qed.

Lemma expired_false_fresh (cbf : CountingBloomFilter) (key : string) (now : Z) :
  expired cbf key now = false ->
  ExpiryStrategy (options cbf) = EXPIRY_DURATION ->
  forall t, timestampMap cbf !! key = Some t -> Since now t <= Duration (options cbf).
Proof.
  unfold expired. intros He Hs t Ht. rewrite Hs, Ht in He. simpl in He.
  apply Z.ltb_ge in He. exact He.
Qed.

(** X9: Check answers true exactly when every counter addressed by the key is
    at least 1 and the key's entry, if any, has not expired; a call that
    answers true leaves the filter as it was. *)
Theorem Check_true_iff (cbf : CountingBloomFilter) (key : string) (now : Z) :
  wf cbf ->
  (Check cbf key now = Ok (true, cbf) <->
   positive_at key (size cbf) (bitmap cbf) /\ expired cbf key now = false) /\
  (forall cbf', Check cbf key now = Ok (true, cbf') -> cbf' = cbf).
Proof.
  intros [Hsh Hr]. split; [split|].
  - intros Hc. unfold Check, Check_rlocked in Hc.
    destruct (Check_loop (Z.to_nat K) 0 key (size cbf) (bitmap cbf)) as [b|] eqn:Hl;
      simpl in Hc; [|discriminate].
    destruct b; [|discriminate]. split.
    + intros t Ht.
      destruct (Check_loop_true _ _ _ _ _ Hl t) as (p & c & Hi & Hp & Hc0).
      { unfold K in *. simpl. lia. }
      exists p, c. split; [assumption|]. split; [assumption|].
      pose proof (proj1 (Forall_lookup _ _) Hr _ _ Hp) as Hrc. unfold uint8_range in Hrc. lia.
    + unfold expired.
      destruct (ExpiryStrategy (options cbf) =? EXPIRY_DURATION)%Z; [|reflexivity].
      destruct (timestampMap cbf !! key) as [t|]; [|reflexivity]. simpl.
      destruct (Duration (options cbf) <? Since now t)%Z; [|reflexivity].
      simpl in Hc. destruct (Remove cbf key); simpl in Hc; discriminate.
  - intros [Hpos Hexp]. apply Check_positive; [assumption|].
    now apply expired_false_fresh.
  - intros cbf' Hc. unfold Check in Hc.
    destruct (Check_rlocked cbf key now) as [[]|]; simpl in Hc; try discriminate.
    + now injection Hc as <-.
    + destruct (Remove cbf key); simpl in Hc; discriminate.
Qed.

Lemma Check_true_iff_witness :
  (Check sample_expiry_filter "k" 9 = Ok (true, sample_expiry_filter) <->
   positive_at "k" (size sample_expiry_filter) (bitmap sample_expiry_filter) /\
   expired sample_expiry_filter "k" 9 = false) /\
  (forall cbf', Check sample_expiry_filter "k" 9 = Ok (true, cbf') ->
     cbf' = sample_expiry_filter).
Proof.
  apply (Check_true_iff sample_expiry_filter "k" 9).
  unfold wf, shaped, sample_expiry_filter, two64, uint8_range; simpl.
  repeat split; try lia. repeat constructor; lia.
Defined.

(** ** Time-based expiry *)

Lemma below_top_bound (cbf : CountingBloomFilter) :
  wf cbf -> below_top cbf -> Forall (fun c => 0 <= c <= 255 - K) (bitmap cbf).
Proof.
  intros [_ Hr] Htop. apply Forall_lookup. intros j c Hc.
  pose proof (proj1 (Forall_lookup _ _) Hr j c Hc) as H1.
  pose proof (proj1 (Forall_lookup _ _) Htop j c Hc) as H2.
  unfold uint8_range in H1. simpl in *. lia.
Qed.

(** X10: Under EXPIRY_DURATION, on a filter whose counters leave room for the
    Add: after Add(key) at instant [t], Check(key) at instant [now] answers
    true when now - t is at most the duration, and otherwise answers false
    and leaves the filter as it was before the Add, without the key's
    timestamp. *)
Theorem Check_after_Add_expires (cbf : CountingBloomFilter) (key : string) (t now : Z) :
  wf cbf -> below_top cbf ->
  ExpiryStrategy (options cbf) = EXPIRY_DURATION ->
  exists cbf1,
    Add cbf key t = Ok cbf1 /\
    Check cbf1 key now =
      if (Duration (options cbf) <? Since now t)%Z
      then Ok (false, mkCBF (bitmap cbf) (size cbf) (options cbf) (currentIndex cbf)
                        (delete key (timestampMap cbf)))
      else Ok (true, cbf1).
Proof.
  intros Hwf Htop He.
  destruct (Remove_Add_exact cbf key t Hwf Htop) as (cbf1 & Hadd & Hwf1 & Hsz & Hrm).
  exists cbf1. split; [exact Hadd|].
  destruct (Add_grows cbf key t (255 - K) (proj1 Hwf) (below_top_bound cbf Hwf Htop))
    as (cbf1' & Hadd' & Hev & _ & Hpos); [lia|].
  assert (cbf1' = cbf1) by congruence. subst cbf1'.
  assert (Ho : options cbf1 = options cbf) by apply Hev.
  assert (Hts : timestampMap cbf1 !! key = Some t).
  { rewrite (Add_timestampMap _ _ _ _ Hadd), He, Z.eqb_refl. apply lookup_insert_eq. }
  unfold Check, Check_rlocked.
  rewrite (Check_loop_positive key (size cbf1) (bitmap cbf1) (Z.to_nat K) 0).
  2:{ intros u Hu. apply Hpos. unfold K in *. simpl in Hu. lia. }
  simpl. rewrite Ho, He, Z.eqb_refl, Hts.
  destruct (Duration (options cbf) <? Since now t)%Z; simpl; [|reflexivity].
  now rewrite Hrm.
Qed.

Lemma Check_after_Add_expires_witness :
  exists cbf1,
    Add sample_low_filter "item1" 100 = Ok cbf1 /\
    Check cbf1 "item1" 106 =
      if (Duration (options sample_low_filter) <? Since 106 100)%Z
      then Ok (false, mkCBF (bitmap sample_low_filter) (size sample_low_filter)
                        (options sample_low_filter)
                        (currentIndex sample_low_filter)
                        (delete "item1" (timestampMap sample_low_filter)))
      else Ok (true, cbf1).
Proof.
  apply (Check_after_Add_expires sample_low_filter "item1" 100 106).
  - unfold wf, shaped, sample_low_filter, two64, uint8_range; simpl.
    repeat split; try lia. repeat constructor; lia.
  - unfold below_top, sample_low_filter, K; simpl. repeat constructor; lia.
  - reflexivity.
Defined.

(** ** The sweep over the timestamp index *)

Lemma Expiry_visit_count (cbf cbf' : CountingBloomFilter) (key : string) (now e e' : Z) :
  Expiry_visit cbf key now e = Ok (cbf', e') -> e' = e \/ e' = e + 1.
Proof.
  unfold Expiry_visit. destruct (decide (key = EmptyString)); [intros [= _ <-]; auto|].
  destruct (Check cbf key now) as [[b c1]|]; simpl; [|discriminate].
  destruct b; [|intros [= _ <-]; auto].
  destruct (index key 0 (size c1)) as [p|]; simpl; [|discriminate].
  destruct (bitmap_get (bitmap c1) p) as [c|]; simpl; [|discriminate].
  destruct (0 <? c)%Z; [|intros [= _ <-]; auto].
  destruct (Remove c1 key); simpl; [|discriminate]. intros [= _ <-]. auto.
Qed.

(** X11: A visit of the sweep to a non-empty key whose counters are all at least
    1 removes the key, whether or not its entry has expired, and counts it as
    evicted only when it had not expired; a key with a counter at 0 is left
    alone. *)
Theorem Expiry_visit_removes_present_key
  (cbf : CountingBloomFilter) (key : string) (now e : Z) :
  wf cbf -> key <> EmptyString ->
  (positive_at key (size cbf) (bitmap cbf) ->
   exists cbf', Remove cbf key = Ok cbf' /\
     Expiry_visit cbf key now e =
       Ok (cbf', if expired cbf key now then e else e + 1)) /\
  (~ positive_at key (size cbf) (bitmap cbf) ->
   Expiry_visit cbf key now e = Ok (cbf, e)).
Proof.
  intros Hwf Hne. pose proof Hwf as [Hsh Hr]. split.
  - intros Hpos. destruct (Remove_ok cbf key Hsh) as (cbf' & Hrm & _).
    exists cbf'. split; [exact Hrm|]. unfold Expiry_visit.
    destruct (decide (key = EmptyString)); [contradiction|].
    destruct (expired cbf key now) eqn:Hexp.
    + unfold Check, Check_rlocked.
      rewrite (Check_loop_positive key (size cbf) (bitmap cbf) (Z.to_nat K) 0).
      2:{ intros u Hu. apply Hpos. unfold K in *. simpl in Hu. lia. }
      simpl. unfold expired in Hexp.
      destruct (ExpiryStrategy (options cbf) =? EXPIRY_DURATION)%Z; [|discriminate].
      destruct (timestampMap cbf !! key) as [t|]; [|discriminate]. simpl in Hexp.
      rewrite Hexp. simpl. rewrite Hrm. reflexivity.
    + rewrite (Check_positive cbf key now Hpos (expired_false_fresh cbf key now Hexp)).
      simpl. destruct (Hpos 0) as (p & c & Hi & Hc & H1); [unfold K; lia|].
      rewrite Hi. simpl.
      rewrite (proj2 (bitmap_get_Ok (bitmap cbf) p c))
        by (split; [eapply index_Ok_nonneg; eassumption|assumption]).
      simpl. destruct (Z.ltb_spec 0 c); [|lia]. rewrite Hrm. reflexivity.
  - intros Hnot. unfold Expiry_visit.
    destruct (decide (key = EmptyString)); [contradiction|].
    unfold Check, Check_rlocked. destruct Hsh as (Hs & Hl & _).
    destruct (Check_loop_ok key (size cbf) Hs (Z.to_nat K) 0 (bitmap cbf) Hl) as [b Hb].
    rewrite Hb. destruct b; [|reflexivity]. exfalso. apply Hnot.
    intros u Hu. destruct (Check_loop_true _ _ _ _ _ Hb u) as (p & c & Hi & Hp & Hc0).
    { unfold K in *. simpl. lia. }
    exists p, c. split; [assumption|]. split; [assumption|].
    pose proof (proj1 (Forall_lookup _ _) Hr _ _ Hp) as Hrc. unfold uint8_range in Hrc. lia.
Qed.

Lemma Expiry_visit_removes_present_key_witness :
  (positive_at "k" (size sample_low_filter) (bitmap sample_low_filter) ->
   exists cbf', Remove sample_low_filter "k" = Ok cbf' /\
     Expiry_visit sample_low_filter "k" 9 0 =
       Ok (cbf', if expired sample_low_filter "k" 9 then 0 else 0 + 1)) /\
  (~ positive_at "k" (size sample_low_filter) (bitmap sample_low_filter) ->
   Expiry_visit sample_low_filter "k" 9 0 = Ok (sample_low_filter, 0)).
Proof.
  apply (Expiry_visit_removes_present_key sample_low_filter "k" 9 0).
  - unfold wf, shaped, sample_low_filter, two64, uint8_range; simpl.
    repeat split; try lia. repeat constructor; lia.
  - discriminate.
Defined.

Lemma Expiry_range_take (now : Z) (keys : list string) :
  forall (i e : Z) (cbf : CountingBloomFilter),
    0 <= i < totalCount ->
    Expiry_range keys i e now cbf =
    Expiry_range (take (Z.to_nat (totalCount - i)) keys) i e now cbf.
Proof.
  induction keys as [|key rest IH]; intros i e cbf Hi.
  - now rewrite take_nil.
  - replace (Z.to_nat (totalCount - i)) with (S (Z.to_nat (totalCount - (i + 1)))) by lia.
    cbn [take Expiry_range].
    destruct (Expiry_visit cbf key now e) as [r|]; simpl; [|reflexivity].
    destruct (Z.leb_spec totalCount (i + 1)); [reflexivity|].
    apply IH. lia.
Qed.

Lemma Expiry_range_count (now : Z) (keys : list string) :
  forall (i e : Z) (cbf cbf' : CountingBloomFilter) (e' : Z),
    0 <= i < totalCount ->
    Expiry_range keys i e now cbf = Ok (cbf', e') ->
    e <= e' <= e + Z.min (Z.of_nat (length keys)) (totalCount - i).
Proof.
  induction keys as [|key rest IH]; intros i e cbf cbf' e' Hi Hrun.
  - simpl in Hrun. injection Hrun as _ <-. simpl. lia.
  - cbn [Expiry_range] in Hrun.
    destruct (Expiry_visit cbf key now e) as [[c1 e1]|] eqn:Hv; simpl in Hrun;
      [|discriminate].
    apply Expiry_visit_count in Hv. simpl length.
    destruct (Z.leb_spec totalCount (i + 1)).
    + injection Hrun as _ <-. lia.
    + apply IH in Hrun; [|lia]. lia.
Qed.

(** X12: A pass of the sweep looks at the first 20 keys of the enumeration only. *)
Theorem Expiry_pass_reads_first_20_keys
  (keys : list string) (now : Z) (cbf : CountingBloomFilter) :
  Expiry_pass keys now cbf = Expiry_pass (take 20 keys) now cbf.
Proof. unfold Expiry_pass. apply (Expiry_range_take now keys 0 0 cbf). unfold totalCount. lia. Qed.

(** X13: A pass of the sweep evicts at most 20 keys, and no more keys than the
    enumeration has. *)
Theorem Expiry_pass_evicts_at_most_20
  (keys : list string) (now : Z) (cbf cbf' : CountingBloomFilter) (evicted : Z) :
  Expiry_pass keys now cbf = Ok (cbf', evicted) ->
  0 <= evicted <= 20 /\ evicted <= Z.of_nat (length keys).
Proof.
  intros Hrun. apply Expiry_range_count in Hrun; unfold totalCount in *; lia.
Qed.

Lemma Expiry_pass_evicts_at_most_20_witness :
  0 <= 1 <= 20 /\ 1 <= Z.of_nat (length ["k"; "z"]).
Proof.
  apply (Expiry_pass_evicts_at_most_20 ["k"; "z"] 9 sample_low_filter
           (mkCBF [1; 0; 38; 0; 0; 0] 6 (mkOptions EXPIRY_DURATION 5) 2 ∅) 1).
  vm_compute. reflexivity.
Defined.

(** ** The lazy sweep *)

Lemma Lazy_loop_window (sz : Z) (n : nat) : forall (s : Z) (bm : list Z),
  0 <= s -> length bm = Z.to_nat sz -> Forall uint8_range bm ->
  exists bm',
    Lazy_loop n s sz bm = Ok (bm', Z.max s (Z.min (s + Z.of_nat n) sz)) /\
    length bm' = length bm /\
    Forall uint8_range bm' /\
    forall (j : nat) (c : Z), bm !! j = Some c ->
      bm' !! j =
        Some (if decide (s <= Z.of_nat j < s + Z.of_nat n) then floor_decr c else c).
Proof.
  induction n as [|n IH]; intros s bm Hs Hlen Hall.
  - exists bm. split; [simpl; do 2 f_equal; lia|]. split; [reflexivity|].
    split; [assumption|]. intros j c Hc.
    destruct (decide (s <= Z.of_nat j < s + Z.of_nat 0)); [lia|assumption].
  - cbn [Lazy_loop]. destruct (Z.ltb_spec s sz) as [Hlt|Hge].
    + destruct (lookup_lt_is_Some_2 bm (Z.to_nat s)) as [cs Hcs]; [lia|].
      pose proof (proj1 (Forall_lookup _ _) Hall _ _ Hcs) as Hrs. unfold uint8_range in Hrs.
      rewrite (decrement_exact bm s cs) by (auto; lia). simpl.
      destruct (IH (s + 1) (<[Z.to_nat s := floor_decr cs]> bm))
        as (bm' & Hrun & Hl & Hr & Hpt).
      { lia. } { now rewrite length_insert. }
      { apply Forall_insert; [assumption|]. unfold uint8_range, floor_decr. lia. }
      exists bm'. split; [rewrite Hrun; do 2 f_equal; lia|].
      rewrite length_insert in Hl. split; [exact Hl|]. split; [exact Hr|].
      intros j c Hc. destruct (decide (j = Z.to_nat s)) as [->|Hne].
      * assert (c = cs) by congruence. subst c.
        rewrite (Hpt (Z.to_nat s) (floor_decr cs)) by (apply list_lookup_insert_eq; lia).
        destruct (decide (s + 1 <= Z.of_nat (Z.to_nat s) < s + 1 + Z.of_nat n)); [lia|].
        destruct (decide (s <= Z.of_nat (Z.to_nat s) < s + Z.of_nat (S n))); [reflexivity|lia].
      * rewrite (Hpt j c) by (rewrite list_lookup_insert_ne by congruence; assumption).
        destruct (decide (s + 1 <= Z.of_nat j < s + 1 + Z.of_nat n));
          destruct (decide (s <= Z.of_nat j < s + Z.of_nat (S n))); try reflexivity; lia.
    + exists bm. split; [do 2 f_equal; lia|]. split; [reflexivity|].
      split; [assumption|]. intros j c Hc. apply lookup_lt_Some in Hc as Hj.
      destruct (decide (s <= Z.of_nat j < s + Z.of_nat (S n))); [lia|assumption].
Qed.

Lemma cleanupWithLazy_exact (ceil_tenth : Z) (cbf : CountingBloomFilter) :
  wf cbf -> currentIndex cbf < size cbf ->
  let batchSize := if (ceil_tenth <? 1)%Z then 1000 else ceil_tenth in
  exists bm,
    cleanupWithLazy ceil_tenth cbf =
      Ok (mkCBF bm (size cbf) (options cbf)
            (if (currentIndex cbf + batchSize <? size cbf)%Z
             then currentIndex cbf + batchSize else 0)
            (timestampMap cbf)) /\
    length bm = length (bitmap cbf) /\
    Forall uint8_range bm /\
    forall (j : nat) (c : Z), bitmap cbf !! j = Some c ->
      bm !! j =
        Some (if decide (currentIndex cbf <= Z.of_nat j < currentIndex cbf + batchSize)
              then floor_decr c else c).
Proof.
  intros [(Hs & Hl & Hc) Hr] Hcur batchSize.
  assert (Hb : 1 <= batchSize) by (unfold batchSize; destruct (Z.ltb_spec ceil_tenth 1); lia).
  unfold cleanupWithLazy. fold batchSize.
  destruct (Lazy_loop_window (size cbf) (Z.to_nat batchSize) (currentIndex cbf) (bitmap cbf)
              Hc Hl Hr) as (bm & -> & Hlen & Hrange & Hpt).
  rewrite Z2Nat.id in * by lia. simpl.
  exists bm. split.
  - f_equal. f_equal.
    destruct (Z.leb_spec (size cbf)
                (Z.max (currentIndex cbf) (Z.min (currentIndex cbf + batchSize) (size cbf))));
      destruct (Z.ltb_spec (currentIndex cbf + batchSize) (size cbf)); lia.
  - auto.
Qed.

(** X14: One tick of the lazy sweep lowers by one, stopping at 0, the counters of
    the slots from the cursor up to the batch size (1000 when the computed
    batch is below 1) or the end of the array; it leaves the other slots,
    the options and the timestamp index, and moves the cursor past the
    batch, or back to 0 when the end is reached. *)
Theorem cleanupWithLazy_lowers_one_batch (ceil_tenth : Z) (cbf : CountingBloomFilter) :
  wf cbf -> currentIndex cbf < size cbf ->
  exists cbf',
    cleanupWithLazy ceil_tenth cbf = Ok cbf' /\
    size cbf' = size cbf /\ options cbf' = options cbf /\
    timestampMap cbf' = timestampMap cbf /\
    length (bitmap cbf') = length (bitmap cbf) /\
    (forall (j : nat) (c : Z), bitmap cbf !! j = Some c ->
       bitmap cbf' !! j =
         Some (if decide (currentIndex cbf <= Z.of_nat j <
                          currentIndex cbf + (if (ceil_tenth <? 1)%Z then 1000 else ceil_tenth))
               then floor_decr c else c)) /\
    currentIndex cbf' =
      (if (currentIndex cbf + (if (ceil_tenth <? 1)%Z then 1000 else ceil_tenth)
           <? size cbf)%Z
       then currentIndex cbf + (if (ceil_tenth <? 1)%Z then 1000 else ceil_tenth)
       else 0) /\
    0 <= currentIndex cbf' < size cbf'.
Proof.
  intros Hwf Hcur.
  destruct (cleanupWithLazy_exact ceil_tenth cbf Hwf Hcur) as (bm & Hrun & Hl & _ & Hpt).
  eexists. split; [exact Hrun|]. simpl.
  split; [reflexivity|]. split; [reflexivity|]. split; [reflexivity|].
  split; [exact Hl|]. split; [exact Hpt|]. split; [reflexivity|].
  destruct Hwf as [(Hs & _ & Hc) _].
  destruct (Z.ltb_spec ceil_tenth 1);
    match goal with |- context [(?a <? ?b)%Z] => destruct (Z.ltb_spec a b) end; lia.
Qed.

Lemma cleanupWithLazy_lowers_one_batch_witness :
  exists cbf',
    cleanupWithLazy 3 sample_low_filter = Ok cbf' /\
    size cbf' = size sample_low_filter /\ options cbf' = options sample_low_filter /\
    timestampMap cbf' = timestampMap sample_low_filter /\
    length (bitmap cbf') = length (bitmap sample_low_filter) /\
    (forall (j : nat) (c : Z), bitmap sample_low_filter !! j = Some c ->
       bitmap cbf' !! j =
         Some (if decide (currentIndex sample_low_filter <= Z.of_nat j <
                          currentIndex sample_low_filter + (if (3 <? 1)%Z then 1000 else 3))
               then floor_decr c else c)) /\
    currentIndex cbf' =
      (if (currentIndex sample_low_filter + (if (3 <? 1)%Z then 1000 else 3)
           <? size sample_low_filter)%Z
       then currentIndex sample_low_filter + (if (3 <? 1)%Z then 1000 else 3)
       else 0) /\
    0 <= currentIndex cbf' < size cbf'.
Proof.
  apply (cleanupWithLazy_lowers_one_batch 3 sample_low_filter).
  - unfold wf, shaped, sample_low_filter, two64, uint8_range; simpl.
    repeat split; try lia. repeat constructor; lia.
  - simpl. lia.
Defined.

Lemma lazy_ticks_to_the_end (b : Z) (n : nat) : forall cbf : CountingBloomFilter,
  wf cbf -> 1 <= b -> currentIndex cbf < size cbf ->
  currentIndex cbf + (Z.of_nat n - 1) * b < size cbf <= currentIndex cbf + Z.of_nat n * b ->
  exists bm,
    run (repeat (OpLazyTick b) n) cbf =
      Ok (mkCBF bm (size cbf) (options cbf) 0 (timestampMap cbf)) /\
    length bm = length (bitmap cbf) /\
    forall (j : nat) (c : Z), bitmap cbf !! j = Some c ->
      bm !! j = Some (if decide (currentIndex cbf <= Z.of_nat j) then floor_decr c else c).
Proof.
  induction n as [|n IH]; intros cbf Hwf Hb Hcur Hn; [simpl in Hn; lia|].
  cbn [repeat run exec].
  destruct (cleanupWithLazy_exact b cbf Hwf Hcur) as (bm1 & Hrun & Hl1 & Hr1 & Hp1).
  cbv zeta in *. destruct (Z.ltb_spec b 1) as [|_]; [lia|].
  rewrite Hrun. simpl. clear Hrun.
  pose proof Hwf as [(Hs & Hl & Hc) Hr].
  rewrite Nat2Z.inj_succ in Hn.
  destruct (Z.ltb_spec (currentIndex cbf + b) (size cbf)) as [Hlt|Hge].
  - set (cbf1 := mkCBF bm1 (size cbf) (options cbf) (currentIndex cbf + b) (timestampMap cbf)).
    destruct (IH cbf1) as (bm & Hrun & Hlen & Hpt).
    + unfold wf, shaped, cbf1; simpl. repeat split; try lia; try assumption; congruence.
    + assumption.
    + exact Hlt.
    + unfold cbf1; simpl. lia.
    + exists bm. split; [exact Hrun|]. simpl in Hlen. split; [congruence|].
      intros j c Hjc. rewrite (Hpt j _ (Hp1 j c Hjc)). simpl. f_equal.
      destruct (decide (currentIndex cbf <= Z.of_nat j < currentIndex cbf + b));
        destruct (decide (currentIndex cbf + b <= Z.of_nat j));
        destruct (decide (currentIndex cbf <= Z.of_nat j)); try reflexivity; lia.
  - destruct n as [|n]; [|exfalso; nia]. simpl.
    exists bm1. split; [reflexivity|]. split; [exact Hl1|].
    intros j c Hjc. rewrite (Hp1 j c Hjc). f_equal. apply lookup_lt_Some in Hjc.
    destruct (decide (currentIndex cbf <= Z.of_nat j < currentIndex cbf + b));
      destruct (decide (currentIndex cbf <= Z.of_nat j)); try reflexivity; lia.
Qed.

Lemma lazy_round_exact (b : Z) (n : nat) (cbf : CountingBloomFilter) :
  wf cbf -> currentIndex cbf = 0 -> 1 <= b ->
  (Z.of_nat n - 1) * b < size cbf <= Z.of_nat n * b ->
  run (repeat (OpLazyTick b) n) cbf =
    Ok (mkCBF (floor_decr <$> bitmap cbf) (size cbf) (options cbf) 0 (timestampMap cbf)).
Proof.
  intros Hwf Hcur Hb Hn. pose proof Hwf as [(Hs & _) _].
  destruct (lazy_ticks_to_the_end b n cbf Hwf Hb) as (bm & -> & Hlen & Hpt); [lia|lia|].
  do 2 f_equal.
  apply (list_eq_same_length _ _ (length (bitmap cbf)));
    [now rewrite length_fmap|exact Hlen|].
  intros j x y Hj Hx Hy. rewrite list_lookup_fmap in Hy.
  destruct (bitmap cbf !! j) as [c|] eqn:Hc; [|discriminate]. simpl in Hy.
  rewrite (Hpt j c Hc) in Hx.
  destruct (decide (currentIndex cbf <= Z.of_nat j)); [congruence|lia].
Qed.

(** X15: A whole round of the lazy sweep: from cursor 0, with a batch of [b]
    slots, the ticks needed to reach the end of the array lower every counter
    by exactly one, stopping at 0, and bring the cursor back to 0. *)
Theorem lazy_round_lowers_every_counter (b : Z) (n : nat) (cbf : CountingBloomFilter) :
  wf cbf -> currentIndex cbf = 0 -> 1 <= b ->
  (Z.of_nat n - 1) * b < size cbf <= Z.of_nat n * b ->
  run (repeat (OpLazyTick b) n) cbf =
    Ok (mkCBF (floor_decr <$> bitmap cbf) (size cbf) (options cbf) 0 (timestampMap cbf)).
Proof. apply lazy_round_exact. Qed.

Lemma lazy_round_lowers_every_counter_witness :
  run (repeat (OpLazyTick 4) 2)
      (mkCBF [3; 1; 40; 1; 0; 2] 6 (mkOptions LAZY_EXPIRATION 5) 0 ∅) =
    Ok (mkCBF (floor_decr <$> [3; 1; 40; 1; 0; 2]) 6 (mkOptions LAZY_EXPIRATION 5) 0 ∅).
Proof.
  apply (lazy_round_lowers_every_counter 4 2
           (mkCBF [3; 1; 40; 1; 0; 2] 6 (mkOptions LAZY_EXPIRATION 5) 0 ∅)).
  - unfold wf, shaped, two64, uint8_range; simpl.
    repeat split; try lia. repeat constructor; lia.
  - reflexivity.
  - lia.
  - simpl. lia.
Defined.

(** ** RemoveAll and construction *)

(** X16: RemoveAll gives the filter of construction with the same size and
    options, except that it keeps the cursor of the lazy sweep; a second
    RemoveAll changes nothing. *)
Theorem RemoveAll_resets_to_new (cbf : CountingBloomFilter) :
  shaped cbf ->
  exists cbf',
    RemoveAll cbf = Ok cbf' /\
    cbf' = mkCBF (replicate (Z.to_nat (size cbf)) 0) (size cbf) (options cbf)
             (currentIndex cbf) ∅ /\
    RemoveAll cbf' = Ok cbf' /\
    (currentIndex cbf = 0 ->
     newCountingBloomFilter (size cbf) (Some (options cbf)) = Ok cbf').
Proof.
  assert (Hexact : forall c, shaped c ->
            RemoveAll c = Ok (mkCBF (replicate (Z.to_nat (size c)) 0) (size c) (options c)
                                (currentIndex c) ∅)).
  { intros c Hsh. destruct (RemoveAll_ok c Hsh) as (bm & -> & Hlen & Hz).
    destruct Hsh as (_ & Hl & _). do 2 f_equal.
    apply (list_eq_same_length _ _ (Z.to_nat (size c)));
      [apply length_replicate|congruence|].
    intros j x y Hj Hx Hy. rewrite Hz in Hx by lia.
    rewrite lookup_replicate_2 in Hy by lia. congruence. }
  intros Hsh. eexists. split; [apply Hexact, Hsh|]. split; [reflexivity|].
  pose proof Hsh as (Hs & Hl & Hc). split.
  - rewrite Hexact; [reflexivity|].
    unfold shaped; simpl. rewrite length_replicate. auto.
  - intros H0. unfold newCountingBloomFilter, make_uint8.
    destruct (Z.ltb_spec (size cbf) 0); [lia|]. simpl. now rewrite H0.
Qed.

Lemma RemoveAll_resets_to_new_witness :
  exists cbf',
    RemoveAll sample_expiry_filter = Ok cbf' /\
    cbf' = mkCBF (replicate (Z.to_nat (size sample_expiry_filter)) 0)
             (size sample_expiry_filter) (options sample_expiry_filter)
             (currentIndex sample_expiry_filter) ∅ /\
    RemoveAll cbf' = Ok cbf' /\
    (currentIndex sample_expiry_filter = 0 ->
     newCountingBloomFilter (size sample_expiry_filter)
       (Some (options sample_expiry_filter)) = Ok cbf').
Proof.
  apply (RemoveAll_resets_to_new sample_expiry_filter).
  unfold shaped, sample_expiry_filter, two64; simpl. lia.
Defined.

Lemma loadOptions_last (os : list Option_) (f : Option_) :
  loadOptions (os ++ [f])%list = f (loadOptions os).
Proof. unfold loadOptions. now rewrite fold_left_app. Qed.

(** X17: Construction with a non-negative size returns a filter of that many
    counters at 0, an empty timestamp index and cursor 0; its period is
    always positive (60 s replaces a period that is not); a last option
    WithExpiryDuration or WithOptions replaces whatever the options before it
    set. *)
Theorem NewCountingBloomFilter_result (sz : Z) (os : list Option_) :
  0 <= sz ->
  exists cbf,
    NewCountingBloomFilter sz os = Ok cbf /\
    bitmap cbf = replicate (Z.to_nat sz) 0 /\ size cbf = sz /\
    currentIndex cbf = 0 /\ timestampMap cbf = ∅ /\
    ExpiryStrategy (options cbf) = ExpiryStrategy (loadOptions os) /\
    0 < Duration (options cbf) /\
    (0 < Duration (loadOptions os) -> options cbf = loadOptions os) /\
    (forall s d (os' : list Option_), os = (os' ++ [WithExpiryDuration s d])%list ->
       options cbf = mkOptions s (if (d <=? 0)%Z then DefaultCleanIntervalTime else d)) /\
    (forall o (os' : list Option_), os = (os' ++ [WithOptions o])%list ->
       options cbf = mkOptions (ExpiryStrategy o)
                       (if (Duration o <=? 0)%Z then DefaultCleanIntervalTime
                        else Duration o)).
Proof.
  intros Hsz. unfold NewCountingBloomFilter, newCountingBloomFilter, make_uint8.
  destruct (Z.ltb_spec sz 0); [lia|]. simpl.
  eexists. split; [reflexivity|]. simpl.
  split; [reflexivity|]. split; [reflexivity|]. split; [reflexivity|].
  split; [reflexivity|].
  assert (Hcase : forall o : Options,
            (if (Duration o <=? 0)%Z
             then mkOptions (ExpiryStrategy o) DefaultCleanIntervalTime else o) =
            mkOptions (ExpiryStrategy o)
              (if (Duration o <=? 0)%Z then DefaultCleanIntervalTime else Duration o)).
  { intros [s d]. simpl. now destruct (d <=? 0)%Z. }
  rewrite Hcase. simpl. split; [reflexivity|]. split.
  { destruct (Z.leb_spec (Duration (loadOptions os)) 0);
      [unfold DefaultCleanIntervalTime|]; lia. }
  split.
  { intros Hpos. destruct (Z.leb_spec (Duration (loadOptions os)) 0); [lia|].
    now destruct (loadOptions os). }
  split.
  - intros s d os' ->. now rewrite loadOptions_last.
  - intros o os' ->. now rewrite loadOptions_last.
Qed.

Lemma NewCountingBloomFilter_result_witness :
  exists cbf,
    NewCountingBloomFilter 8 [WithExpiryDuration LAZY_EXPIRATION 0] = Ok cbf /\
    bitmap cbf = replicate (Z.to_nat 8) 0 /\ size cbf = 8 /\
    currentIndex cbf = 0 /\ timestampMap cbf = ∅ /\
    ExpiryStrategy (options cbf) =
      ExpiryStrategy (loadOptions [WithExpiryDuration LAZY_EXPIRATION 0]) /\
    0 < Duration (options cbf) /\
    (0 < Duration (loadOptions [WithExpiryDuration LAZY_EXPIRATION 0]) ->
     options cbf = loadOptions [WithExpiryDuration LAZY_EXPIRATION 0]) /\
    (forall s d (os' : list Option_),
       [WithExpiryDuration LAZY_EXPIRATION 0] = (os' ++ [WithExpiryDuration s d])%list ->
       options cbf = mkOptions s (if (d <=? 0)%Z then DefaultCleanIntervalTime else d)) /\
    (forall o (os' : list Option_),
       [WithExpiryDuration LAZY_EXPIRATION 0] = (os' ++ [WithOptions o])%list ->
       options cbf = mkOptions (ExpiryStrategy o)
                       (if (Duration o <=? 0)%Z then DefaultCleanIntervalTime
                        else Duration o)).
Proof.
  apply (NewCountingBloomFilter_result 8 [WithExpiryDuration LAZY_EXPIRATION 0]). lia.
Defined.

(** ** Keys whose positions coincide *)

Lemma hits_ext (k1 k2 : string) (sz : Z) (j : nat) (n : nat) : forall i : Z,
  (forall t, i <= t < i + Z.of_nat n -> index k1 t sz = index k2 t sz) ->
  hits k1 sz n i j = hits k2 sz n i j.
Proof.
  induction n as [|n IH]; intros i Heq; simpl hits; [reflexivity|].
  rewrite (IH (i + 1)) by (intros t Ht; apply Heq; lia).
  unfold hit. rewrite (Heq i) by lia. reflexivity.
Qed.

Lemma index_without_wrap (key : string) (t sz : Z) :
  0 < sz < two64 -> 0 <= t -> fnv1a64 (bytes_of key) + t < two64 ->
  index key t sz = Ok ((fnv1a64 (bytes_of key) mod sz + t) mod sz).
Proof.
  intros Hsz Ht Hno. destruct (index_positive_size key t sz Hsz) as [-> _].
  rewrite (hash_without_wrap key t Ht Hno). now rewrite Zplus_mod_idemp_l.
Qed.

Lemma index_collide (k1 k2 : string) (sz t : Z) :
  0 < sz < two64 ->
  fnv1a64 (bytes_of k1) + K <= two64 -> fnv1a64 (bytes_of k2) + K <= two64 ->
  index k1 0 sz = index k2 0 sz ->
  0 <= t < K -> index k1 t sz = index k2 t sz.
Proof.
  intros Hsz H1 H2 H0 Ht. unfold K in *.
  rewrite !index_without_wrap in H0 by lia. rewrite !Z.add_0_r in H0.
  rewrite !Z.mod_mod in H0 by lia. injection H0 as H0.
  rewrite !index_without_wrap by lia. now rewrite H0.
Qed.

(** X18: Two keys with the same position at trial 0 (and no wrap of hash + trial)
    cannot be told apart: after Add of one, every counter of the other is at
    least 1, so Check finds it unless it has expired, and Remove of the other
    takes the Add back. *)
Theorem colliding_key_is_found_and_removes
  (cbf : CountingBloomFilter) (k1 k2 : string) (t : Z) :
  wf cbf -> below_top cbf ->
  fnv1a64 (bytes_of k1) + K <= two64 -> fnv1a64 (bytes_of k2) + K <= two64 ->
  index k1 0 (size cbf) = index k2 0 (size cbf) ->
  exists cbf1 cbf2,
    Add cbf k1 t = Ok cbf1 /\
    positive_at k2 (size cbf1) (bitmap cbf1) /\
    Remove cbf1 k2 = Ok cbf2 /\
    bitmap cbf2 = bitmap cbf.
Proof.
  intros Hwf Htop Hw1 Hw2 H0. pose proof Hwf as [(Hs & Hl & Hc) Hr].
  assert (Hidx : forall u, 0 <= u < K -> index k1 u (size cbf) = index k2 u (size cbf)).
  { intros u Hu. now apply index_collide. }
  assert (Hh : forall j, hits_of k2 (size cbf) j = hits_of k1 (size cbf) j).
  { intros j. unfold hits_of. symmetry. apply hits_ext.
    intros u Hu. apply Hidx. unfold K in *. simpl in Hu. lia. }
  destruct (Add_exact cbf k1 t Hwf) as (bm1 & Hadd & Hl1 & Hr1 & Hp1).
  match type of Hadd with _ = Ok ?a => set (cbf1 := a) in * end.
  assert (Hwf1 : wf cbf1).
  { unfold wf, shaped, cbf1; simpl. repeat split; try lia; try assumption; congruence. }
  destruct (Remove_exact cbf1 k2 Hwf1) as (bm2 & Hrm & Hl2 & Hp2).
  assert (Hsmall : forall j c, bitmap cbf !! j = Some c ->
            0 <= c /\ c + hits_of k1 (size cbf) j <= 255).
  { intros j c Hjc.
    pose proof (proj1 (Forall_lookup _ _) Htop j c Hjc) as Ht. simpl in Ht.
    pose proof (proj1 (Forall_lookup _ _) Hr j c Hjc) as Hc'. unfold uint8_range in Hc'.
    pose proof (hits_of_range k1 (size cbf) j). lia. }
  eexists cbf1, _. split; [exact Hadd|]. split; [|split; [exact Hrm|]].
  - intros u Hu. simpl.
    destruct (index_in_slice k2 (size cbf) Hs u (bitmap cbf) Hl) as (p & Hip & Hp).
    destruct (lookup_lt_is_Some_2 (bitmap cbf) (Z.to_nat p)) as [c Hcp]; [lia|].
    destruct (Hsmall _ _ Hcp) as [Hc0 Hc255].
    exists p, (c + hits_of k1 (size cbf) (Z.to_nat p)).
    split; [exact Hip|]. split.
    + rewrite (Hp1 _ _ Hcp). f_equal. apply Z.mod_small.
      pose proof (hits_of_range k1 (size cbf) (Z.to_nat p)). lia.
    + assert (1 <= hits_of k1 (size cbf) (Z.to_nat p)); [|lia].
      unfold hits_of. apply (hits_positive k1 (size cbf) (Z.to_nat p) (Z.to_nat K) 0 u).
      * unfold K in *. simpl. lia.
      * rewrite (Hidx u Hu), Hip. f_equal. lia.
  - simpl in *.
    apply (list_eq_same_length _ _ (length (bitmap cbf))); [reflexivity|congruence|].
    intros j x y Hj Hx Hy. destruct (Hsmall _ _ Hy) as [Hc0 Hc255].
    rewrite (Hp2 j _ (Hp1 j y Hy)), Hh in Hx. injection Hx as <-.
    pose proof (hits_of_range k1 (size cbf) j).
    rewrite Z.mod_small by lia. lia.
Qed.

Lemma colliding_key_is_found_and_removes_witness :
  exists cbf1 cbf2,
    Add (mkCBF [3; 0] 2 (mkOptions NO_EXPIRATION 5) 0 ∅) "item1" 4 = Ok cbf1 /\
    positive_at "item3" (size cbf1) (bitmap cbf1) /\
    Remove cbf1 "item3" = Ok cbf2 /\
    bitmap cbf2 = bitmap (mkCBF [3; 0] 2 (mkOptions NO_EXPIRATION 5) 0 ∅).
Proof.
  apply (colliding_key_is_found_and_removes
           (mkCBF [3; 0] 2 (mkOptions NO_EXPIRATION 5) 0 ∅) "item1" "item3" 4).
  - unfold wf, shaped, two64, uint8_range; simpl.
    repeat split; try lia. repeat constructor; lia.
  - unfold below_top, K; simpl. repeat constructor; lia.
  - vm_compute. discriminate.
  - vm_compute. discriminate.
  - vm_compute. reflexivity.
Defined.

(** ** A key added once, after a round of the lazy sweep *)

Lemma hits_at_most_one (item : string) (sz : Z) (j : nat) (n : nat) : forall i : Z,
  (forall t t', i <= t < t' -> t' < i + Z.of_nat n ->
     index item t sz <> index item t' sz) ->
  hits item sz n i j <= 1.
Proof.
  induction n as [|n IH]; intros i Hd; simpl hits; [lia|].
  pose proof (IH (i + 1) ltac:(intros t t' Ht Ht'; apply Hd; lia)) as Hrest.
  unfold hit. destruct (index item i sz) as [p|] eqn:Hi; [|lia].
  destruct (Z.eqb_spec p (Z.of_nat j)) as [->|_]; [|lia].
  rewrite hits_zero; [lia|].
  intros t Ht Heq. apply (Hd i t); [lia|lia|congruence].
Qed.

(** X21: On a new filter with at least 12 slots, a key added once (no wrap of
    hash + trial) is forgotten by one round of the lazy sweep: after the
    ticks that take the cursor from 0 to the end of the array, every counter
    is 0 again and Check of the key answers false. *)
Theorem added_once_forgotten_after_lazy_round
  (sz : Z) (opts : option Options) (key : string) (t b : Z) (n : nat) :
  K <= sz < two64 -> fnv1a64 (bytes_of key) + K <= two64 ->
  1 <= b -> (Z.of_nat n - 1) * b < sz <= Z.of_nat n * b ->
  exists cbf0 cbf1 cbf2,
    newCountingBloomFilter sz opts = Ok cbf0 /\
    Add cbf0 key t = Ok cbf1 /\
    run (repeat (OpLazyTick b) n) cbf1 = Ok cbf2 /\
    bitmap cbf2 = bitmap cbf0 /\
    forall now, Check cbf2 key now = Ok (false, cbf2).
Proof.
  intros Hsz Hwrap Hb Hn. unfold K in Hsz.
  destruct (newCountingBloomFilter_ok sz opts ltac:(lia))
    as (cbf0 & Hnew & Hwf0 & Hsize & Hbm & Hts & _).
  pose proof Hwf0 as [(Hs0 & Hl0 & Hc0) Hr0].
  destruct (Add_exact cbf0 key t Hwf0) as (bm1 & Hadd & Hl1 & Hr1 & Hp1).
  match type of Hadd with _ = Ok ?a => set (cbf1 := a) in * end.
  assert (Hcur0 : currentIndex cbf0 = 0).
  { unfold newCountingBloomFilter in Hnew.
    destruct (make_uint8 sz); simpl in Hnew; [|discriminate]. now injection Hnew as <-. }
  assert (Hwf1 : wf cbf1).
  { unfold wf, shaped, cbf1; simpl. repeat split; try lia; try assumption; congruence. }
  assert (Hone : forall j, 0 <= hits_of key (size cbf0) j <= 1).
  { intros j. split; [apply hits_of_range|]. unfold hits_of. apply hits_at_most_one.
    intros u u' Hu Hu'. rewrite Hsize. apply index_distinct; unfold K in *; simpl in *; lia. }
  assert (Hb1 : forall j c, bm1 !! j = Some c -> 0 <= c <= 1).
  { intros j c Hjc. destruct (lookup_lt_is_Some_2 (bitmap cbf0) j) as [c0 Hc0j].
    { rewrite <- Hl1. eapply lookup_lt_Some; eassumption. }
    rewrite (Hp1 j c0 Hc0j) in Hjc. injection Hjc as <-.
    rewrite Hbm in Hc0j. apply lookup_replicate_1 in Hc0j as [-> _].
    pose proof (Hone j). rewrite Z.mod_small; lia. }
  assert (Hzero : floor_decr <$> bm1 = bitmap cbf0).
  { apply (list_eq_same_length _ _ (length (bitmap cbf0)));
      [reflexivity|rewrite length_fmap; exact Hl1|].
    intros j x y Hj Hx Hy. rewrite list_lookup_fmap in Hx.
    destruct (bm1 !! j) as [c|] eqn:Hc; [|discriminate]. simpl in Hx. injection Hx as <-.
    rewrite Hbm in Hy. apply lookup_replicate_1 in Hy as [-> _].
    pose proof (Hb1 j c Hc). unfold floor_decr. lia. }
  eexists cbf0, cbf1, _. split; [exact Hnew|]. split; [exact Hadd|]. split.
  { apply (lazy_round_exact b n cbf1 Hwf1); [exact Hcur0|exact Hb|].
    simpl. rewrite Hsize. exact Hn. }
  simpl. split; [exact Hzero|].
  intros now. unfold Check, Check_rlocked. cbn [bitmap size].
  change (Z.to_nat K) with 12%nat. rewrite Hzero.
  rewrite (Check_loop_all_zero key (size cbf0) Hs0 11 0 (bitmap cbf0) Hl0); [reflexivity|].
  intros j Hj. rewrite Hbm in *. apply lookup_replicate_2.
  now rewrite length_replicate in Hj.
Qed.

Lemma added_once_forgotten_after_lazy_round_witness :
  exists cbf0 cbf1 cbf2,
    newCountingBloomFilter 64 (Some (mkOptions LAZY_EXPIRATION 5)) = Ok cbf0 /\
    Add cbf0 "item1" 3 = Ok cbf1 /\
    run (repeat (OpLazyTick 7) 10) cbf1 = Ok cbf2 /\
    bitmap cbf2 = bitmap cbf0 /\
    forall now, Check cbf2 "item1" now = Ok (false, cbf2).
Proof.
  apply (added_once_forgotten_after_lazy_round
           64 (Some (mkOptions LAZY_EXPIRATION 5)) "item1" 3 7 10).
  - unfold K, two64. lia.
  - vm_compute. discriminate.
  - lia.
  - simpl. lia.
Defined.
